(** * Yandex Lavka slot monitor: a shallow embedding of [main.py]

    The development follows [YandexLavkaMonitor] of [src/main.py]:
    the change detector [has_new_slots], the formatter
    [format_slots_message], the parser [parse_slots], the notifier
    [send_notifications] and the fetcher [check_slots].

    Python values are the values [json.loads] produces, numbers being
    integers (a response with other numbers is outside this model); a
    Python [str] is the list of its code points. Logging is left out
    except for the count the notifier writes at the end of a batch. *)

From Stdlib Require Import ZArith NArith List Lia Bool Ascii String DecimalN.
From stdpp Require Import base list gmap.

Local Open Scope N_scope.

(** ** Python strings *)

(** A Python [str]: the sequence of its code points. *)
Definition pystr := list N.

Module Utf8.
(** Decoding of the UTF-8 text of the literals of [main.py]. *)
Definition cont (b : N) : N := N.land b 0x3F.

Fixpoint decode (bs : list N) : pystr :=
  match bs with
  | [] => []
  | b :: r =>
    if b <? 0x80 then b :: decode r
    else if b <? 0xE0 then
      match r with
      | b1 :: r1 => N.lor (N.shiftl (N.land b 0x1F) 6) (cont b1) :: decode r1
      | _ => []
      end
    else if b <? 0xF0 then
      match r with
      | b1 :: b2 :: r2 =>
        N.lor (N.shiftl (N.land b 0x0F) 12)
              (N.lor (N.shiftl (cont b1) 6) (cont b2)) :: decode r2
      | _ => []
      end
    else
      match r with
      | b1 :: b2 :: b3 :: r3 =>
        N.lor (N.shiftl (N.land b 0x07) 18)
              (N.lor (N.shiftl (cont b1) 12)
                     (N.lor (N.shiftl (cont b2) 6) (cont b3))) :: decode r3
      | _ => []
      end
  end.

Fixpoint bytes (s : string) : list N :=
  match s with
  | EmptyString => []
  | String a r => N_of_ascii a :: bytes r
  end.
End Utf8.

(** The Python literal written as [s] in the source. *)
Definition txt (s : string) : pystr := Utf8.decode (Utf8.bytes s).

Definition nl : pystr := [10].

Definition pystr_eqb (a b : pystr) : bool := bool_decide (a = b).

(** [needle in hay] for two [str]. *)
Fixpoint starts_with (p s : pystr) : bool :=
  match p, s with
  | [], _ => true
  | _ :: _, [] => false
  | a :: p', b :: s' => (a =? b) && starts_with p' s'
  end.

Fixpoint contains (needle hay : pystr) : bool :=
  starts_with needle hay ||
  match hay with
  | [] => false
  | _ :: hay' => contains needle hay'
  end.

(** ** [repr] of a [str] (CPython's [unicode_repr]) *)

Definition hexdigit (d : N) : N := if d <? 10 then 48 + d else 87 + d.

Definition nibble (c : N) (i : N) : N := N.land (N.shiftr c (4 * i)) 0xF.

Definition hex2 (c : N) : pystr := [hexdigit (nibble c 1); hexdigit (nibble c 0)].
Definition hex4 (c : N) : pystr :=
  [hexdigit (nibble c 3); hexdigit (nibble c 2);
   hexdigit (nibble c 1); hexdigit (nibble c 0)].
Definition hex8 (c : N) : pystr :=
  [hexdigit (nibble c 7); hexdigit (nibble c 6);
   hexdigit (nibble c 5); hexdigit (nibble c 4);
   hexdigit (nibble c 3); hexdigit (nibble c 2);
   hexdigit (nibble c 1); hexdigit (nibble c 0)].

Definition ch_squote : N := 39.
Definition ch_dquote : N := 34.
Definition ch_backslash : N := 92.

Definition has_char (c : N) (s : pystr) : bool := existsb (N.eqb c) s.

(** Double quotes are used only when the text has a single quote and no
    double quote. *)
Definition repr_quote (s : pystr) : N :=
  if has_char ch_squote s && negb (has_char ch_dquote s)
  then ch_dquote else ch_squote.

Set Warnings "-register-all,-clear-no-such-hyp".

(** ** Python values *)

(** The values [response.json()] yields: [None], [bool], [int], [str],
    [list] and [dict] (a [dict] keeps its insertion order; its keys
    are [str]). *)
Inductive json : Type :=
| JNull
| JBool (b : bool)
| JInt (z : Z)
| JStr (s : pystr)
| JList (l : list json)
| JDict (d : list (pystr * json)).

(** ** Exceptions *)

(** The exceptions the modelled code can meet. All but
    [CancelledError] derive from [Exception]. *)
Inductive exn : Type :=
| AttributeError
| TypeError
| KeyError
| ValueError
| ClientError (text : pystr)
| CancelledError.

Definition is_Exception (e : exn) : bool :=
  match e with
  | CancelledError => false
  | _ => true
  end.

(** A computation that returns a value or raises. *)
Inductive result (A : Type) : Type :=
| Ok (a : A)
| Raise (e : exn).
Arguments Ok {A} a.
Arguments Raise {A} e.

#[global] Instance result_bind : MBind result :=
  fun A B k m => match m with
                 | Ok a => k a
                 | Raise e => Raise e
                 end.

(** [try: body except Exception as e: handler(e)] *)
Definition try_except {A : Type} (body : result A) (handler : exn -> result A)
  : result A :=
  match body with
  | Ok a => Ok a
  | Raise e => if is_Exception e then handler e else Raise e
  end.

Section Runtime.
(** The tables of the Python runtime's Unicode database that the
    program consults: [str.isprintable] on one code point and
    [str.lower]. *)
Variable isprintable : N -> bool.
Variable str_lower : pystr -> pystr.

Definition repr_char (quote ch : N) : pystr :=
  if (ch =? quote) || (ch =? ch_backslash) then [ch_backslash; ch]
  else if ch =? 9 then [ch_backslash; 116]
  else if ch =? 10 then [ch_backslash; 110]
  else if ch =? 13 then [ch_backslash; 114]
  else if (ch <? 32) || (ch =? 0x7F) then ch_backslash :: 120 :: hex2 ch
  else if ch <? 0x7F then [ch]
  else if negb (isprintable ch) then
    if ch <=? 0xFF then ch_backslash :: 120 :: hex2 ch
    else if ch <=? 0xFFFF then ch_backslash :: 117 :: hex4 ch
    else ch_backslash :: 85 :: hex8 ch
  else [ch].

Definition repr_body (quote : N) (s : pystr) : pystr :=
  flat_map (repr_char quote) s.

Definition repr_str (s : pystr) : pystr :=
  let quote := repr_quote s in
  quote :: repr_body quote s ++ [quote].

(** Decimal digits of a natural number. *)
Fixpoint uint_digits (u : Decimal.uint) : pystr :=
  match u with
  | Decimal.Nil => []
  | Decimal.D0 r => 48 :: uint_digits r
  | Decimal.D1 r => 49 :: uint_digits r
  | Decimal.D2 r => 50 :: uint_digits r
  | Decimal.D3 r => 51 :: uint_digits r
  | Decimal.D4 r => 52 :: uint_digits r
  | Decimal.D5 r => 53 :: uint_digits r
  | Decimal.D6 r => 54 :: uint_digits r
  | Decimal.D7 r => 55 :: uint_digits r
  | Decimal.D8 r => 56 :: uint_digits r
  | Decimal.D9 r => 57 :: uint_digits r
  end.

Definition repr_nat (n : N) : pystr := uint_digits (N.to_uint n).

Definition repr_int (z : Z) : pystr :=
  if (z <? 0)%Z then 45 :: repr_nat (Z.abs_N z) else repr_nat (Z.abs_N z).

Definition comma_sp : pystr := [44; 32].
Definition colon_sp : pystr := [58; 32].

(** [', '.join(items)] *)
Definition join_sep (items : list pystr) : pystr :=
  match items with
  | [] => []
  | x :: r => x ++ flat_map (fun y => comma_sp ++ y) r
  end.

Definition lit_None : pystr := Eval vm_compute in txt "None".
Definition lit_True : pystr := Eval vm_compute in txt "True".
Definition lit_False : pystr := Eval vm_compute in txt "False".

(** [repr(v)] *)
Fixpoint py_repr (v : json) : pystr :=
  match v with
  | JNull => lit_None
  | JBool true => lit_True
  | JBool false => lit_False
  | JInt z => repr_int z
  | JStr s => repr_str s
  | JList l => 91 :: join_sep (map py_repr l) ++ [93]
  | JDict d =>
    123 :: join_sep (map (fun kv => let '(k, x) := kv in
                                    repr_str k ++ colon_sp ++ py_repr x) d)
        ++ [125]
  end.

(** [str(v)], also what an f-string field [{v}] renders. *)
Definition py_str (v : json) : pystr :=
  match v with
  | JStr s => s
  | _ => py_repr v
  end.

(** [repr] of a 2-tuple. *)
Definition repr_pair (p : json * json) : pystr :=
  40 :: py_repr p.1 ++ comma_sp ++ py_repr p.2 ++ [41].

(** [str] of a list of 2-tuples. *)
Definition str_pairs (l : list (json * json)) : pystr :=
  91 :: join_sep (map repr_pair l) ++ [93].

(** Truth value of a Python value ([if v:], [not v]). *)
Definition truthy (v : json) : bool :=
  match v with
  | JNull => false
  | JBool b => b
  | JInt z => negb (z =? 0)%Z
  | JStr s => negb (bool_decide (s = []))
  | JList l => negb (bool_decide (l = []))
  | JDict d => negb (bool_decide (d = []))
  end.

(** ** Slot records and the monitor's state *)

(** One dict built by [parse_slots]: always the same five keys. *)
Record slot : Type := mkSlot {
  date : json;
  start_time : json;
  end_time : json;
  price : json;
  currency : json
}.

Definition k_date : pystr := Eval vm_compute in txt "date".
Definition k_start_time : pystr := Eval vm_compute in txt "start_time".
Definition k_end_time : pystr := Eval vm_compute in txt "end_time".
Definition k_price : pystr := Eval vm_compute in txt "price".
Definition k_currency : pystr := Eval vm_compute in txt "currency".

(** [s[key]] on a slot record; [None] stands for [KeyError]. *)
Definition slot_item (s : slot) (key : pystr) : option json :=
  if pystr_eqb key k_date then Some (date s)
  else if pystr_eqb key k_start_time then Some (start_time s)
  else if pystr_eqb key k_end_time then Some (end_time s)
  else if pystr_eqb key k_price then Some (price s)
  else if pystr_eqb key k_currency then Some (currency s)
  else None.

(** [s.get(key, dflt)] on a slot record. *)
Definition slot_get (s : slot) (key : pystr) (dflt : json) : json :=
  default dflt (slot_item s key).

(** [self.subscribers] and [self.last_slots]. *)
Record monitor : Type := mkMonitor {
  subscribers : gset Z;
  last_slots : list slot
}.

(** [YandexLavkaMonitor.__init__] *)
Definition init_monitor : monitor :=
  {| subscribers := ∅; last_slots := [] |}.

(** ** Change detector *)

(** The comprehension
    [[(s.get('date', ''), s.get('start_time', '')) for s in slots]]. *)
Definition slot_keys (slots : list slot) : list (json * json) :=
  map (fun s => (slot_get s k_date (JStr []), slot_get s k_start_time (JStr [])))
      slots.

(** [has_new_slots]: the returned flag and the state afterwards. *)
Definition has_new_slots (self : monitor) (current_slots : list slot)
  : bool * monitor :=
  if bool_decide (current_slots = []) then (false, self)
  else
    let current_slots_str := str_pairs (slot_keys current_slots) in
    let last_slots_str := str_pairs (slot_keys (last_slots self)) in
    let has_changes := negb (pystr_eqb current_slots_str last_slots_str) in
    if has_changes
    then (true, {| subscribers := subscribers self;
                   last_slots := current_slots |})
    else (false, self).

(** ** Dates: [datetime.strptime(_, '%Y-%m-%d')] and
       [strftime('%d.%m.%Y')] *)

Record pydate : Type := mkDate { year : N; month : N; day : N }.

Definition in_range (lo hi c : N) : bool := (lo <=? c) && (c <=? hi).
Definition is_digit (c : N) : bool := in_range 48 57 c.

(** The directive [%m]: [1[0-2]|0[1-9]|[1-9]]. *)
Definition parse_month (t : pystr) : option N :=
  match t with
  | [a] => if in_range 49 57 a then Some (a - 48) else None
  | [a; b] =>
    if (a =? 49) && in_range 48 50 b then Some (10 + (b - 48))
    else if (a =? 48) && in_range 49 57 b then Some (b - 48)
    else None
  | _ => None
  end.

(** The directive [%d]: [3[0-1]|[1-2]\d|0[1-9]|[1-9]| [1-9]]. *)
Definition parse_day (t : pystr) : option N :=
  match t with
  | [a] => if in_range 49 57 a then Some (a - 48) else None
  | [a; b] =>
    if (a =? 51) && in_range 48 49 b then Some (30 + (b - 48))
    else if in_range 49 50 a && is_digit b
         then Some (10 * (a - 48) + (b - 48))
    else if (a =? 48) && in_range 49 57 b then Some (b - 48)
    else if (a =? 32) && in_range 49 57 b then Some (b - 48)
    else None
  | _ => None
  end.

(** The directive [%Y]: exactly four digits. *)
Definition parse_year (a b c d : N) : option N :=
  if is_digit a && is_digit b && is_digit c && is_digit d
  then Some (1000 * (a - 48) + 100 * (b - 48) + 10 * (c - 48) + (d - 48))
  else None.

Definition is_leap (y : N) : bool :=
  (y mod 4 =? 0) && (negb (y mod 100 =? 0) || (y mod 400 =? 0)).

Definition days_in_month (y m : N) : N :=
  if m =? 2 then (if is_leap y then 29 else 28)
  else if (m =? 4) || (m =? 6) || (m =? 9) || (m =? 11) then 30
  else 31.

(** The calendar check of the [datetime] constructor. *)
Definition valid_date (y m d : N) : bool :=
  (1 <=? y) && (y <=? 9999) && (1 <=? m) && (m <=? 12)
  && (1 <=? d) && (d <=? days_in_month y m).

Definition make_date (y m d : N) : option pydate :=
  if valid_date y m d then Some (mkDate y m d) else None.

(** [strptime] of a [str] with the format ['%Y-%m-%d']: the whole text
    must match; [None] stands for [ValueError]. Digits are the ASCII
    ones. *)
Definition strptime_text (s : pystr) : option pydate :=
  match s with
  | y1 :: y2 :: y3 :: y4 :: sep1 :: m1 :: c :: rest =>
    if sep1 =? 45 then
      y ← parse_year y1 y2 y3 y4;
      if c =? 45 then
        m ← parse_month [m1]; d ← parse_day rest; make_date y m d
      else
        match rest with
        | sep2 :: dtok =>
          if sep2 =? 45 then
            m ← parse_month [m1; c]; d ← parse_day dtok; make_date y m d
          else None
        | [] => None
        end
    else None
  | _ => None
  end.

(** [datetime.strptime(v, '%Y-%m-%d')]: a value that is no [str] is a
    [TypeError]; [None] stands for either exception. *)
Definition strptime_ymd (v : json) : option pydate :=
  match v with
  | JStr s => strptime_text s
  | _ => None
  end.

Definition pad2 (n : N) : pystr := [48 + n / 10 mod 10; 48 + n mod 10].
Definition pad4 (n : N) : pystr :=
  [48 + n / 1000 mod 10; 48 + n / 100 mod 10; 48 + n / 10 mod 10; 48 + n mod 10].

(** [date_obj.strftime('%d.%m.%Y')]. Years from 1000 on take four
    digits on every platform; a smaller year is padded with zeros here. *)
Definition strftime_dmy (d : pydate) : pystr :=
  pad2 (day d) ++ [46] ++ pad2 (month d) ++ [46] ++ pad4 (year d).

(** ** Message formatting *)

Definition msg_no_slots : pystr := Eval vm_compute in txt "❌ Нет доступных слотов".
Definition msg_header : pystr :=
  Eval vm_compute in txt "🎉 <b>Доступные слоты для доставки:</b>" ++ nl ++ nl.
Definition lit_b_open : pystr := Eval vm_compute in txt "<b>".
Definition lit_dot_cal : pystr := Eval vm_compute in txt ". 📅 ".
Definition lit_b_close : pystr := Eval vm_compute in txt "</b>" ++ nl.
Definition lit_clock : pystr := Eval vm_compute in txt "   🕒 ".
Definition lit_dash : pystr := Eval vm_compute in txt " - ".
Definition lit_money : pystr := Eval vm_compute in txt "   💰 ".
Definition lit_space : pystr := Eval vm_compute in txt " ".
Definition lit_more_open : pystr := Eval vm_compute in txt "<i>... и ещё ".
Definition lit_more_close : pystr := Eval vm_compute in txt " слотов</i>" ++ nl.
Definition lit_checked_open : pystr :=
  Eval vm_compute in nl ++ txt "🕐 <i>Проверено: ".
Definition lit_checked_close : pystr := Eval vm_compute in txt "</i>".

(** The first line of an entry: [f"<b>{i}. 📅 {date_str}</b>\n"]. *)
Definition date_line (i : nat) (date_str : pystr) : pystr :=
  lit_b_open ++ repr_nat (N.of_nat i) ++ lit_dot_cal ++ date_str ++ lit_b_close.

(** [f"   🕒 {slot['start_time']} - {slot['end_time']}\n"] *)
Definition time_line (start_t end_t : json) : pystr :=
  lit_clock ++ py_str start_t ++ lit_dash ++ py_str end_t ++ nl.

(** [f"   💰 {slot['price']} {slot['currency']}\n"] *)
Definition price_line (p c : json) : pystr :=
  lit_money ++ py_str p ++ lit_space ++ py_str c ++ nl.

(** The body of the [try] for one slot: the text appended to
    [message], or [None] when an exception is raised (only the first
    two statements can raise, before anything is appended). *)
Definition render_slot (i : nat) (s : slot) : option pystr :=
  d ← slot_item s k_date;
  date_obj ← strptime_ymd d;
  let date_str := strftime_dmy date_obj in
  st ← slot_item s k_start_time;
  et ← slot_item s k_end_time;
  p ← slot_item s k_price;
  c ← slot_item s k_currency;
  Some (date_line i date_str ++ time_line st et
        ++ (if truthy p then price_line p c else []) ++ nl).

(** The loop [for i, slot in enumerate(slots[:15], 1)], started at
    index [i] with the text accumulated so far. *)
Fixpoint format_loop (i : nat) (slots : list slot) (message : pystr) : pystr :=
  match slots with
  | [] => message
  | s :: rest =>
    match render_slot i s with
    | Some entry => format_loop (S i) rest (message ++ entry)
    | None => format_loop (S i) rest message
    end
  end.

Definition more_line (n : nat) : pystr :=
  lit_more_open ++ repr_nat (N.of_nat n) ++ lit_more_close.

Definition checked_line (clock : pystr) : pystr :=
  lit_checked_open ++ clock ++ lit_checked_close.

(** [format_slots_message]; [clock] is
    [datetime.now().strftime('%H:%M:%S')]. *)
Definition format_slots_message (clock : pystr) (slots : list slot) : pystr :=
  if bool_decide (slots = []) then msg_no_slots
  else
    let message := msg_header in
    let message := format_loop 1 (take 15 slots) message in
    let message :=
      if (15 <? length slots)%nat
      then message ++ more_line (length slots - 15)
      else message in
    message ++ checked_line clock.

(** ** Operations on Python values *)

Fixpoint assoc (k : pystr) (d : list (pystr * json)) : option json :=
  match d with
  | [] => None
  | (k', v) :: r => if pystr_eqb k k' then Some v else assoc k r
  end.

(** [v.get(key, dflt)]: only a [dict] has the method. *)
Definition dict_get (v : json) (key : pystr) (dflt : json) : result json :=
  match v with
  | JDict d => Ok (default dflt (assoc key d))
  | _ => Raise AttributeError
  end.

(** [v[key]] on a [dict] ([check_slots] applies it to values on which
    [.get] has succeeded). *)
Definition dict_item (v : json) (key : pystr) : result json :=
  match v with
  | JDict d => match assoc key d with Some x => Ok x | None => Raise KeyError end
  | _ => Raise TypeError
  end.

(** The items a [for] loop over [v] visits. *)
Definition py_iter (v : json) : result (list json) :=
  match v with
  | JList l => Ok l
  | JDict d => Ok (map (fun kv => JStr kv.1) d)
  | JStr s => Ok (map (fun c => JStr [c]) s)
  | _ => Raise TypeError
  end.

(** [v.lower()]: only a [str] has the method. *)
Definition py_lower (v : json) : result pystr :=
  match v with
  | JStr s => Ok (str_lower s)
  | _ => Raise AttributeError
  end.

(** [v == text] for a [str] literal [text]. *)
Definition eq_text (v : json) (text : pystr) : bool :=
  match v with
  | JStr s => pystr_eqb s text
  | _ => false
  end.

(** ** Parsing of the slots response *)

Definition k_slots : pystr := Eval vm_compute in txt "slots".
Definition k_available_slots : pystr := Eval vm_compute in txt "available_slots".
Definition k_available : pystr := Eval vm_compute in txt "available".
Definition k_type : pystr := Eval vm_compute in txt "type".
Definition k_from : pystr := Eval vm_compute in txt "from".
Definition k_to : pystr := Eval vm_compute in txt "to".
Definition k_value : pystr := Eval vm_compute in txt "value".
Definition lit_regular : pystr := Eval vm_compute in txt "regular".
Definition lit_rouble : pystr := Eval vm_compute in txt "₽".

(** The condition
    [slot.get('available', False) and slot.get('type') == 'regular']. *)
Definition slot_selected (entry : json) : result bool :=
  a ← dict_get entry k_available (JBool false);
  if truthy a
  then (t ← dict_get entry k_type JNull; Ok (eq_text t lit_regular))
  else Ok false.

(** The dict literal appended for a selected slot entry. *)
Definition make_slot (day_date entry : json) : result slot :=
  st ← dict_get entry k_from (JStr []);
  et ← dict_get entry k_to (JStr []);
  p1 ← dict_get entry k_price (JDict []);
  pv ← dict_get p1 k_value JNull;
  p2 ← dict_get entry k_price (JDict []);
  cur ← dict_get p2 k_currency (JStr lit_rouble);
  Ok {| date := day_date; start_time := st; end_time := et;
        price := pv; currency := cur |}.

(** The inner loop [for slot in slots], threading [available_slots]. *)
Fixpoint parse_day_slots (day_date : json) (entries : list json)
         (available_slots : list slot) : result (list slot) :=
  match entries with
  | [] => Ok available_slots
  | entry :: rest =>
    sel ← slot_selected entry;
    if (sel : bool)
    then (item ← make_slot day_date entry;
          parse_day_slots day_date rest (available_slots ++ [item]))
    else parse_day_slots day_date rest available_slots
  end.

(** The outer loop [for day_slots in slots_list]. *)
Fixpoint parse_days (days : list json) (available_slots : list slot)
  : result (list slot) :=
  match days with
  | [] => Ok available_slots
  | day_slots :: rest =>
    day_date ← dict_get day_slots k_date (JStr []);
    slots ← dict_get day_slots k_slots (JList []);
    entries ← py_iter slots;
    available_slots ← parse_day_slots day_date entries available_slots;
    parse_days rest available_slots
  end.

(** [parse_slots] *)
Definition parse_slots (slots_data : json) : result (list slot) :=
  let available_slots := [] in
  slots_list ← dict_get slots_data k_slots (JList []);
  slots_list ←
    (if negb (truthy slots_list)
     then dict_get slots_data k_available_slots (JList [])
     else Ok slots_list);
  days ← py_iter slots_list;
  parse_days days available_slots.

(** ** Notifier *)

(** What [await self.application.bot.send_message(...)] does for one
    chat: it returns, or raises an exception derived from [Exception]
    whose [str(e)] is [text]. *)
Inductive delivery : Type :=
| Delivered
| Failed (text : pystr).

Definition lit_bot_was_blocked : pystr := Eval vm_compute in txt "bot was blocked".
Definition lit_chat_not_found : pystr := Eval vm_compute in txt "chat not found".

(** The test
    ["bot was blocked" in str(e).lower() or "chat not found" in str(e).lower()]. *)
Definition unreachable (text : pystr) : bool :=
  contains lit_bot_was_blocked (str_lower text)
  || contains lit_chat_not_found (str_lower text).

(** [s.remove(x)] on a [set]: [KeyError] when [x] is absent. *)
Definition set_remove (x : Z) (s : gset Z) : result (gset Z) :=
  if bool_decide (x ∈ s) then Ok (s ∖ {[x]}) else Raise KeyError.

(** The variables the notification loop updates; [attempts] records
    the chats [send_message] was called for, in order. *)
Record notify_state : Type := mkNotify {
  ns_subscribers : gset Z;
  successful_sends : nat;
  attempts : list Z
}.

(** The loop [for user_id in list(self.subscribers)]. An exception
    raised in the [except] block leaves the loop. *)
Fixpoint notify_loop (send_message : Z -> pystr -> delivery) (message : pystr)
         (users : list Z) (st : notify_state) : result notify_state :=
  match users with
  | [] => Ok st
  | user_id :: rest =>
    match send_message user_id message with
    | Delivered =>
      notify_loop send_message message rest
        {| ns_subscribers := ns_subscribers st;
           successful_sends := S (successful_sends st);
           attempts := attempts st ++ [user_id] |}
    | Failed text =>
      if unreachable text
      then (subs ← set_remove user_id (ns_subscribers st);
            notify_loop send_message message rest
              {| ns_subscribers := subs;
                 successful_sends := successful_sends st;
                 attempts := attempts st ++ [user_id] |})
      else notify_loop send_message message rest
             {| ns_subscribers := ns_subscribers st;
                successful_sends := successful_sends st;
                attempts := attempts st ++ [user_id] |}
    end
  end.

(** What a call of [send_notifications] leaves behind: the value it
    returns, the monitor, the chats tried and the two numbers of the
    final log line [Notifications sent: a/b] (absent on the early
    return). *)
Record notify_out : Type := mkNotifyOut {
  returned : json;
  monitor_after : monitor;
  tried : list Z;
  logged_counts : option (nat * nat)
}.

(** [send_notifications]; [list(self.subscribers)] is [elements]. *)
Definition send_notifications (send_message : Z -> pystr -> delivery)
           (clock : pystr) (self : monitor) (slots : list slot)
  : result notify_out :=
  if bool_decide (subscribers self = ∅)
  then Ok {| returned := JNull; monitor_after := self; tried := [];
             logged_counts := None |}
  else
    let message := format_slots_message clock slots in
    st ← notify_loop send_message message (elements (subscribers self))
           {| ns_subscribers := subscribers self;
              successful_sends := 0; attempts := [] |};
    Ok {| returned := JNull;
          monitor_after := {| subscribers := ns_subscribers st;
                              last_slots := last_slots self |};
          tried := attempts st;
          logged_counts := Some (successful_sends st, size (ns_subscribers st)) |}.

(** ** Slot fetcher *)

(** The three requests the fetcher issues. *)
Inductive endpoint : Type :=
| SearchStores
| StoreSlots (store_id : pystr)
| DirectSlots.

(** An HTTP response: its status and what [await response.json()]
    gives. *)
Record response : Type := mkResponse {
  status : Z;
  body : result json
}.

Definition k_found : pystr := Eval vm_compute in txt "found".
Definition k_stores : pystr := Eval vm_compute in txt "stores".
Definition k_address : pystr := Eval vm_compute in txt "address".
Definition k_full : pystr := Eval vm_compute in txt "full".
Definition k_name : pystr := Eval vm_compute in txt "name".
Definition k_id : pystr := Eval vm_compute in txt "id".
Definition lit_street : pystr := Eval vm_compute in txt "среднерогатская".
Definition lit_20 : pystr := Eval vm_compute in txt "20".

Section Fetch.
(** [session.get(...)] entered as a context manager: a response, or
    the exception raised. *)
Variable http_get : endpoint -> result response.

(** [get_store_slots]: a snapshot or [None]. *)
Definition get_store_slots (store_id : json) : result (option (list slot)) :=
  try_except
    (resp ← http_get (StoreSlots (py_str store_id));
     if (status resp =? 200)%Z
     then (slots_data ← body resp;
           l ← parse_slots slots_data;
           Ok (Some l))
     else Ok None)
    (fun _ => Ok None).

(** [direct_slots_check] *)
Definition direct_slots_check : result (option (list slot)) :=
  try_except
    (resp ← http_get DirectSlots;
     if (status resp =? 200)%Z
     then (data ← body resp;
           l ← parse_slots data;
           Ok (Some l))
     else Ok None)
    (fun _ => Ok None).

(** The loop [for store in stores]: [Some r] when it executes
    [return slots] with value [r], [None] when it runs to its end. *)
Fixpoint search_stores (stores : list json)
  : result (option (option (list slot))) :=
  match stores with
  | [] => Ok None
  | store :: rest =>
    a ← dict_get store k_address (JDict []);
    full ← dict_get a k_full (JStr []);
    address ← py_lower full;
    n ← dict_get store k_name (JStr []);
    name ← py_lower n;
    if contains lit_street address && contains lit_20 address
    then (store_id ← dict_item store k_id;
          shown ← dict_item store k_name;
          slots ← get_store_slots store_id;
          Ok (Some slots))
    else search_stores rest
  end.

(** The body of the [try] of [check_slots]. *)
Definition check_slots_body : result (option (list slot)) :=
  resp ← http_get SearchStores;
  found ←
    (if (status resp =? 200)%Z
     then (data ← body resp;
           f ← dict_get data k_found (JDict []);
           stores ← dict_get f k_stores (JList []);
           stores ←
             (if negb (truthy stores)
              then dict_get data k_stores (JList [])
              else Ok stores);
           items ← py_iter stores;
           search_stores items)
     else Ok None);
  match found with
  | Some slots => Ok slots
  | None => direct_slots_check
  end.

(** [check_slots] *)
Definition check_slots : result (option (list slot)) :=
  try_except check_slots_body (fun _ => Ok None).
End Fetch.

End Runtime.

(** ** Command handlers *)

Section Handlers.
Variable isprintable : N -> bool.
Variable str_lower : pystr -> pystr.

Definition msg_subscribed : pystr :=
  Eval vm_compute in
    txt "✅ Вы подписаны на уведомления о слотах! Бот будет присылать уведомления при появлении доступных слотов доставки.".
Definition msg_unsubscribed : pystr :=
  Eval vm_compute in txt "❌ Вы отписаны от уведомлений.".
Definition msg_not_subscribed : pystr :=
  Eval vm_compute in txt "ℹ️ Вы не были подписаны.".
Definition msg_checking : pystr :=
  Eval vm_compute in txt "🔍 Проверяю доступные слоты...".
Definition msg_none_now : pystr :=
  Eval vm_compute in txt "❌ На данный момент нет доступных слотов для доставки.".
Definition msg_check_error : pystr :=
  Eval vm_compute in txt "⚠️ Ошибка при проверке: ".

(** [subscribe]: the monitor afterwards and the text of the reply. *)
Definition subscribe (self : monitor) (user_id : Z) : monitor * pystr :=
  ({| subscribers := subscribers self ∪ {[ user_id ]};
      last_slots := last_slots self |},
   msg_subscribed).

(** [unsubscribe]: the monitor afterwards and the text of the reply. *)
Definition unsubscribe (self : monitor) (user_id : Z) : result (monitor * pystr) :=
  if bool_decide (user_id ∈ subscribers self)
  then (subs ← set_remove user_id (subscribers self);
        Ok ({| subscribers := subs; last_slots := last_slots self |},
            msg_unsubscribed))
  else Ok (self, msg_not_subscribed).

(** What a call of [status] does: the texts it passes to
    [reply_text], in order, and the exception that leaves it, if any. *)
Record status_out : Type := mkStatusOut {
  replies : list pystr;
  escaped : option exn
}.

Section Status.
(** [str(e)] of an exception, and [await update.message.reply_text(...)]. *)
Variable exn_str : exn -> pystr.
Variable reply_text : pystr -> result unit.
Variable http_get : endpoint -> result response.

(** The [except Exception as e] block of [status], entered with the
    texts sent so far. *)
Definition status_failed (sent : list pystr) (e : exn) : status_out :=
  if is_Exception e
  then let text := msg_check_error ++ exn_str e in
       {| replies := sent ++ [text];
          escaped := match reply_text text with
                     | Ok _ => None
                     | Raise e' => Some e'
                     end |}
  else {| replies := sent; escaped := Some e |}.

(** The handler [status] (the name [status] is the field of a response
    here). *)
Definition status_handler (clock : pystr) : status_out :=
  match reply_text msg_checking with
  | Raise e => status_failed [msg_checking] e
  | Ok _ =>
    match check_slots isprintable str_lower http_get with
    | Raise e => status_failed [msg_checking] e
    | Ok slots =>
      let message :=
        match slots with
        | Some (s :: rest) => format_slots_message isprintable clock (s :: rest)
        | _ => msg_none_now
        end in
      match reply_text message with
      | Raise e => status_failed [msg_checking; message] e
      | Ok _ => {| replies := [msg_checking; message]; escaped := None |}
      end
    end
  end.
End Status.

(** ** The monitoring loop *)

(** What one pass of the loop meets: the responses of the API, the
    outcome of each delivery and the time of the check. *)
Record env : Type := mkEnv {
  env_http : endpoint -> result response;
  env_send : Z -> pystr -> delivery;
  env_clock : pystr
}.

(** The body of the [try] of one pass: the monitor afterwards and the
    chats a notification was tried for. *)
Definition cycle_body (w : env) (self : monitor) : result (monitor * list Z) :=
  current_slots ← check_slots isprintable str_lower (env_http w);
  match current_slots with
  | Some (s :: rest) =>
    let changed := has_new_slots isprintable self (s :: rest) in
    if changed.1
    then (out ← send_notifications isprintable str_lower (env_send w)
                  (env_clock w) changed.2 (s :: rest);
          Ok (monitor_after out, tried out))
    else Ok (changed.2, [])
  | _ => Ok (self, [])
  end.

(** One pass of [while True]. The [except] block only logs and sleeps;
    an exception it catches was raised by [check_slots], before the
    monitor is touched, as the notifier raises none. *)
Definition cycle (w : env) (self : monitor) : result (monitor * list Z) :=
  try_except (cycle_body w self) (fun _ => Ok (self, [])).

(** The first check, which only stores its snapshot. *)
Definition seed (http_get : endpoint -> result response) (self : monitor)
  : result monitor :=
  initial_slots ← check_slots isprintable str_lower http_get;
  Ok (match initial_slots with
      | Some (s :: rest) => {| subscribers := subscribers self;
                               last_slots := s :: rest |}
      | _ => self
      end).

(** The passes of the loop over the worlds [ws], one after the other:
    the monitor at the end and the batch of each pass. *)
Fixpoint run_cycles (ws : list env) (self : monitor)
  : result (monitor * list (list Z)) :=
  match ws with
  | [] => Ok (self, [])
  | w :: rest =>
    step ← cycle w self;
    later ← run_cycles rest step.1;
    Ok (later.1, step.2 :: later.2)
  end.

(** [monitoring_loop], cut after as many passes as [ws] has worlds. *)
Definition monitoring_loop (first : endpoint -> result response)
           (ws : list env) (self : monitor) : result (monitor * list (list Z)) :=
  seeded ← seed first self;
  run_cycles ws seeded.

End Handlers.

(** ** Reading a [repr] back

    The inverse of one step of [repr_char], the first character of each
    kind of [repr], and the validity of the strings inside a value. *)

Definition hexval (h : N) : N := if h <? 58 then h - 48 else h - 87.

Definition unhex2 (h1 h0 : N) : N := 16 * hexval h1 + hexval h0.
Definition unhex4 (h3 h2 h1 h0 : N) : N := 256 * unhex2 h3 h2 + unhex2 h1 h0.

Definition unescape1 (s : pystr) : option (N * pystr) :=
  match s with
  | 92 :: 116 :: r => Some (9, r)
  | 92 :: 110 :: r => Some (10, r)
  | 92 :: 114 :: r => Some (13, r)
  | 92 :: 120 :: h1 :: h0 :: r => Some (unhex2 h1 h0, r)
  | 92 :: 117 :: h3 :: h2 :: h1 :: h0 :: r => Some (unhex4 h3 h2 h1 h0, r)
  | 92 :: 85 :: h7 :: h6 :: h5 :: h4 :: h3 :: h2 :: h1 :: h0 :: r =>
    Some (65536 * unhex4 h7 h6 h5 h4 + unhex4 h3 h2 h1 h0, r)
  | 92 :: c :: r => Some (c, r)
  | c :: r => Some (c, r)
  | [] => None
  end.

(** The text does not go on with a decimal digit. *)
Definition no_digit_head (r : pystr) : Prop :=
  match r with
  | [] => True
  | c :: _ => is_digit c = false
  end.

(** The kind of value a [repr] starting with [c] denotes. *)
Definition char_kind (c : N) : N :=
  if c =? 78 then 0
  else if (c =? 84) || (c =? 70) then 1
  else if (c =? 45) || is_digit c then 2
  else if (c =? ch_squote) || (c =? ch_dquote) then 3
  else if c =? 91 then 4
  else if c =? 123 then 5
  else 6.

Definition json_kind (v : json) : N :=
  match v with
  | JNull => 0
  | JBool _ => 1
  | JInt _ => 2
  | JStr _ => 3
  | JList _ => 4
  | JDict _ => 5
  end.

(** Every code point of a Python [str] is below [0x110000]. *)
Definition wf_strb (s : pystr) : bool := forallb (fun c => c <? 0x110000) s.

(** Every [str] inside the value is a valid one. *)
Fixpoint wf_json (v : json) : bool :=
  match v with
  | JStr s => wf_strb s
  | JList l => forallb wf_json l
  | JDict d => forallb (fun kv => let '(k, x) := kv in wf_strb k && wf_json x) d
  | _ => true
  end.

Definition wf_slot (s : slot) : bool := wf_json (date s) && wf_json (start_time s).

(** ** The snapshot a well-shaped response denotes

    The reading of a slots response as the specification words it: the
    list of days, the entries of each day, the entries that are
    available and regular, and the record of such an entry. *)

(** [v.get(key, dflt)] when [v] is a dict. *)
Definition get_or (v : json) (key : pystr) (dflt : json) : json :=
  match v with
  | JDict d => default dflt (assoc key d)
  | _ => dflt
  end.

Definition items (v : json) : list json :=
  match v with
  | JList l => l
  | _ => []
  end.

(** The list of days: under ['slots'], or under ['available_slots'] when
    the former is missing or empty. *)
Definition slot_list (data : json) : json :=
  let l := get_or data k_slots (JList []) in
  if truthy l then l else get_or data k_available_slots (JList []).

(** The availability flag is a true value and the type is ['regular']. *)
Definition available_regular (entry : json) : bool :=
  truthy (get_or entry k_available (JBool false))
  && eq_text (get_or entry k_type JNull) lit_regular.

Definition record_of (day_date entry : json) : slot :=
  {| date := day_date;
     start_time := get_or entry k_from (JStr []);
     end_time := get_or entry k_to (JStr []);
     price := get_or (get_or entry k_price (JDict [])) k_value JNull;
     currency := get_or (get_or entry k_price (JDict [])) k_currency
                        (JStr lit_rouble) |}.

Definition day_entries (day : json) : list json :=
  items (get_or day k_slots (JList [])).

Definition day_records (day : json) : list slot :=
  map (record_of (get_or day k_date (JStr [])))
      (filter (fun e => available_regular e = true) (day_entries day)).

Definition snapshot_of (data : json) : list slot :=
  flat_map day_records (items (slot_list data)).

Definition is_dict (v : json) : bool :=
  match v with JDict _ => true | _ => false end.

Definition is_list (v : json) : bool :=
  match v with JList _ => true | _ => false end.

(** A slot entry is an object, with an object for its price when it is
    available and regular. *)
Definition entry_ok (entry : json) : bool :=
  is_dict entry
  && (negb (available_regular entry)
      || is_dict (get_or entry k_price (JDict []))).

(** A day is an object whose slots are a list of such entries. *)
Definition day_ok (day : json) : bool :=
  is_dict day
  && is_list (get_or day k_slots (JList []))
  && forallb entry_ok (day_entries day).

(** The response is an object whose list of days is a list of such
    days. *)
Definition well_shaped (data : json) : bool :=
  is_dict data
  && is_list (slot_list data)
  && forallb day_ok (items (slot_list data)).

(** ** Which exceptions a computation can raise *)

(** Whatever [m] raises derives from [Exception]. *)
Definition only_exceptions {A : Type} (m : result A) : Prop :=
  forall e, m = Raise e -> is_Exception e = true.

(** The failures of the network are errors derived from [Exception]:
    those of a request and those of reading the body of a response. *)
Definition network_errors_only (http_get : endpoint -> result response) : Prop :=
  forall ep,
    only_exceptions (http_get ep)
    /\ forall resp, http_get ep = Ok resp -> only_exceptions (body resp).

(** ** A runtime for the examples: every code point from [0x7F] on
    counts as printable, and [lower] folds the ASCII capitals. *)
Definition all_printable (c : N) : bool := true.
Definition ascii_lower (s : pystr) : pystr :=
  map (fun c => if in_range 65 90 c then c + 32 else c) s.

(** ** Notions used in the statements *)

(** The key of a record in the comparison. *)
Definition slot_key (s : slot) : json * json := (date s, start_time s).

(** The strings of a dict item and of a pair are valid. *)
Definition wf_entry (kv : pystr * json) : Prop :=
  (let '(k, x) := kv in wf_strb k && wf_json x) = true.

Definition wf_pair (p : json * json) : Prop :=
  wf_json p.1 && wf_json p.2 = true.

Section Injective.
Context {A : Type} (f : A -> pystr) (ok : A -> Prop).

(** The text [f a] determines [a] among the [ok] values, whatever
    follows it, as long as no digit follows. *)
Definition inj_at (a : A) : Prop :=
  forall b r1 r2, ok a -> ok b ->
    no_digit_head r1 -> no_digit_head r2 ->
    f a ++ r1 = f b ++ r2 -> a = b /\ r1 = r2.
End Injective.

Section Readings.
Variable isprintable : N -> bool.
Variable str_lower : pystr -> pystr.

(** The text of one item of a dict in its [repr]. *)
Definition repr_entry (kv : pystr * json) : pystr :=
  let '(k, x) := kv in repr_str isprintable k ++ colon_sp ++ py_repr isprintable x.

(** The entry of record [s] at number [i] once its date is parsed. *)
Definition entry_of (i : nat) (s : slot) (d : pydate) : pystr :=
  date_line i (strftime_dmy d)
  ++ time_line isprintable (start_time s) (end_time s)
  ++ (if truthy (price s)
      then price_line isprintable (price s) (currency s) else [])
  ++ nl.

(** What each of the positions [1..15] contributes to the message: the
    entry of its record, or nothing when the record is skipped. *)
Definition position_texts (slots : list slot) : list pystr :=
  imap (fun k s => default [] (render_slot isprintable (S k) s)) (take 15 slots).


(** *** Reading the search response *)

Definition is_str (v : json) : bool :=
  match v with JStr _ => true | _ => false end.

(** The search request is answered with status 200 and the body [data]. *)
Definition search_reply (http_get : endpoint -> result response) (data : json)
  : Prop :=
  exists resp, http_get SearchStores = Ok resp
               /\ status resp = 200%Z /\ body resp = Ok data.

(** The value looped over as the list of stores: under ['found'] then
    ['stores'], or under ['stores'] when the former is missing or empty. *)
Definition store_list (data : json) : json :=
  let stores := get_or (get_or data k_found (JDict [])) k_stores (JList []) in
  if truthy stores then stores else get_or data k_stores (JList []).

(** The stores of a response whose parts have the expected types. *)
Definition stores_of (data : json) : option (list json) :=
  if is_dict data && is_dict (get_or data k_found (JDict []))
  then match store_list data with
       | JList stores => Some stores
       | _ => None
       end
  else None.

Definition store_address (store : json) : json :=
  get_or (get_or store k_address (JDict [])) k_full (JStr []).

(** A store entry the loop can examine: an object whose address is an
    object with a text, and whose name, if any, is a text. *)
Definition plain_store (store : json) : bool :=
  is_dict store
  && is_dict (get_or store k_address (JDict []))
  && is_str (store_address store)
  && is_str (get_or store k_name (JStr [])).

(** The address, in lower case, names the street and the house. *)
Definition store_matches (store : json) : bool :=
  match store_address store with
  | JStr a => contains lit_street (str_lower a) && contains lit_20 (str_lower a)
  | _ => false
  end.

(** A store entry the loop passes over. *)
Definition other_store (store : json) : bool :=
  plain_store store && negb (store_matches store).

Section Batch.
Variable send_message : Z -> pystr -> delivery.
Variable message : pystr.

(** The delivery to [u] succeeds. *)
Definition delivered (u : Z) : bool :=
  match send_message u message with
  | Delivered => true
  | Failed _ => false
  end.

(** The delivery to [u] fails with a text classified as unreachable. *)
Definition dropped (u : Z) : bool :=
  match send_message u message with
  | Delivered => false
  | Failed text => unreachable str_lower text
  end.

(** The loop variables after the visit of [u], the set becoming [subs]. *)
Definition visit (st : notify_state) (u : Z) (subs : gset Z) : notify_state :=
  {| ns_subscribers := subs;
     successful_sends := if delivered u then S (successful_sends st)
                         else successful_sends st;
     attempts := attempts st ++ [u] |}.
End Batch.
End Readings.

(** ** Values for the examples *)

Definition slot_a : slot :=
  {| date := JStr (txt "2024-01-05"); start_time := JStr (txt "10:00");
     end_time := JStr (txt "11:00"); price := JInt 99;
     currency := JStr (txt "RUB") |}.

Definition slot_a_dearer : slot :=
  {| date := JStr (txt "2024-01-05"); start_time := JStr (txt "10:00");
     end_time := JStr (txt "11:00"); price := JInt 149;
     currency := JStr (txt "EUR") |}.

Definition slot_b : slot :=
  {| date := JStr (txt "2024-01-06"); start_time := JStr (txt "12:00");
     end_time := JStr (txt "13:00"); price := JNull;
     currency := JStr (txt "RUB") |}.

Definition watching (stored : list slot) : monitor :=
  {| subscribers := {[ 42%Z ]}; last_slots := stored |}.

Definition clock_noon : pystr := Eval vm_compute in txt "12:00:00".

(** A record of a day without a date: [parse_slots] stores ['']. *)
Definition slot_undated : slot :=
  {| date := JStr []; start_time := JStr (txt "10:00");
     end_time := JStr (txt "11:00"); price := JInt 99;
     currency := JStr (txt "RUB") |}.


(** A slots response: one day with an available regular slot, a slot
    flagged with a number, an express slot and an unavailable one. *)
Definition response_day : json :=
  JDict [(txt "date", JStr (txt "2024-01-05"));
         (txt "slots",
          JList [JDict [(txt "available", JBool true);
                        (txt "type", JStr (txt "regular"));
                        (txt "from", JStr (txt "10:00"));
                        (txt "to", JStr (txt "11:00"));
                        (txt "price", JDict [(txt "value", JInt 99)])];
                 JDict [(txt "available", JInt 1);
                        (txt "type", JStr (txt "regular"));
                        (txt "from", JStr (txt "12:00"));
                        (txt "to", JStr (txt "13:00"))];
                 JDict [(txt "available", JBool true);
                        (txt "type", JStr (txt "express"))];
                 JDict [(txt "available", JBool false);
                        (txt "type", JStr (txt "regular"))]])].

Definition slots_response : json := JDict [(txt "slots", JList [response_day])].

Definition slot_morning : slot :=
  {| date := JStr (txt "2024-01-05"); start_time := JStr (txt "10:00");
     end_time := JStr (txt "11:00"); price := JInt 99;
     currency := JStr (txt "₽") |}.

Definition slot_noon : slot :=
  {| date := JStr (txt "2024-01-05"); start_time := JStr (txt "12:00");
     end_time := JStr (txt "13:00"); price := JNull;
     currency := JStr (txt "₽") |}.

(** Every request fails to connect. *)
Definition offline (ep : endpoint) : result response :=
  Raise (ClientError (txt "Cannot connect to host")).

(** The search finds the store, whose slots are [slots_response]. *)
Definition lavka (ep : endpoint) : result response :=
  match ep with
  | SearchStores =>
    Ok {| status := 200;
          body := Ok (JDict [(txt "found",
                              JDict [(txt "stores",
                                      JList [JDict [(txt "id", JInt 7);
                                                    (txt "name", JStr (txt "Lavka"));
                                                    (txt "address",
                                                     JDict [(txt "full",
                                                             JStr (txt "среднерогатская 20"))])]])])]) |}
  | StoreSlots store_id =>
    if pystr_eqb store_id (txt "7")
    then Ok {| status := 200; body := Ok slots_response |}
    else Ok {| status := 404; body := Raise ValueError |}
  | DirectSlots => Ok {| status := 500; body := Raise ValueError |}
  end.

(** The task is cancelled while the first request is awaited. *)
Definition cancelled (ep : endpoint) : result response := Raise CancelledError.

(** Chat 42 has blocked the bot, chat 7 times out, the others receive
    the message. *)
Definition telegram (chat_id : Z) (text : pystr) : delivery :=
  if (chat_id =? 42)%Z then Failed (txt "Forbidden: bot was blocked by the user")
  else if (chat_id =? 7)%Z then Failed (txt "Timed out")
  else Delivered.

Definition subscribed (ids : gset Z) : monitor :=
  {| subscribers := ids; last_slots := [slot_a] |}.

(** Every delivery succeeds. *)
Definition always_delivers (chat_id : Z) (text : pystr) : delivery := Delivered.

(** A store at the address looked for, one without a name, and one
    elsewhere. *)
Definition lavka_store : json :=
  JDict [(txt "id", JInt 7);
         (txt "name", JStr (txt "Lavka"));
         (txt "address", JDict [(txt "full", JStr (txt "среднерогатская 20"))])].

Definition unnamed_store : json :=
  JDict [(txt "id", JInt 7);
         (txt "address", JDict [(txt "full", JStr (txt "среднерогатская 20"))])].

Definition far_store : json :=
  JDict [(txt "id", JInt 3);
         (txt "name", JStr (txt "Nevsky"));
         (txt "address", JDict [(txt "full", JStr (txt "невский 1"))])].

(** The body of a search reply listing [stores]. *)
Definition search_body (stores : list json) : json :=
  JDict [(txt "found", JDict [(txt "stores", JList stores)])].

(** The search lists [stores]; no store has slots to show (status 404),
    the direct request answers with [slots_response]. *)
Definition world_with (stores : list json) (ep : endpoint) : result response :=
  match ep with
  | SearchStores => Ok {| status := 200; body := Ok (search_body stores) |}
  | StoreSlots _ => Ok {| status := 404; body := Raise ValueError |}
  | DirectSlots => Ok {| status := 200; body := Ok slots_response |}
  end.

(** [str(e)] for the examples, and two chats: one where every reply goes
    through, one where every reply fails. *)
Definition exn_text (e : exn) : pystr :=
  match e with
  | ClientError text => text
  | _ => []
  end.

Definition reply_ok (text : pystr) : result unit := Ok tt.

Definition reply_down (text : pystr) : result unit :=
  Raise (ClientError (txt "Timed out")).

Definition pass_lavka : env :=
  {| env_http := lavka; env_send := always_delivers; env_clock := clock_noon |}.

Definition pass_offline : env :=
  {| env_http := offline; env_send := telegram; env_clock := clock_noon |}.


(** A day of a response that carries no date. *)
Definition undated_day : json :=
  JDict [(txt "slots",
          JList [JDict [(txt "available", JBool true);
                        (txt "type", JStr (txt "regular"));
                        (txt "from", JStr (txt "10:00"));
                        (txt "to", JStr (txt "11:00"))]])].

(** What the batch to chats 42 and 100 leaves through [telegram]. *)
Definition batch_out : notify_out :=
  {| returned := JNull;
     monitor_after := {| subscribers := {[ 100%Z ]}; last_slots := [slot_a] |};
     tried := elements ({[ 42%Z; 100%Z ]} : gset Z);
     logged_counts := Some (1%nat, 1%nat) |}.

(** * Properties *)

Section Facts.
Variable isprintable : N -> bool.
Variable str_lower : pystr -> pystr.

Lemma hexval_hexdigit d : d < 16 -> hexval (hexdigit d) = d.
Proof.
  intros Hd. unfold hexval, hexdigit.
  destruct (d <? 10) eqn:E.
  - apply N.ltb_lt in E.
    replace (48 + d <? 58) with true by (symmetry; apply N.ltb_lt; lia). lia.
  - apply N.ltb_ge in E.
    replace (87 + d <? 58) with false by (symmetry; apply N.ltb_ge; lia). lia.
Qed.

Lemma nibble_spec c i : nibble c i = c / 2 ^ (4 * i) mod 16.
Proof.
  unfold nibble. rewrite N.shiftr_div_pow2.
  change 15 with (N.ones 4). now rewrite N.land_ones.
Qed.

Lemma nibble_lt c i : nibble c i < 16.
Proof. rewrite nibble_spec. now apply N.mod_lt. Qed.

Lemma unhex2_hex c i j :
  j = i + 1 ->
  unhex2 (hexdigit (nibble c j)) (hexdigit (nibble c i))
  = c / 2 ^ (4 * i) mod 256.
Proof.
  intros ->. unfold unhex2. rewrite !hexval_hexdigit by apply nibble_lt.
  rewrite !nibble_spec.
  replace (4 * (i + 1)) with (4 * i + 4) by lia.
  rewrite N.pow_add_r, <- N.Div0.div_div.
  generalize (c / 2 ^ (4 * i)). intros x.
  change (2 ^ 4) with 16.
  pose proof (N.Div0.div_mod x 16).
  pose proof (N.Div0.div_mod (x / 16) 16).
  pose proof (N.Div0.div_mod x 256).
  assert (x / 256 = x / 16 / 16) by (now rewrite N.Div0.div_div).
  pose proof (N.mod_lt x 16). pose proof (N.mod_lt (x / 16) 16).
  pose proof (N.mod_lt x 256). lia.
Qed.

Lemma unhex2_hex2 c : c < 256 -> unhex2 (hexdigit (nibble c 1)) (hexdigit (nibble c 0)) = c.
Proof.
  intros Hc. rewrite (unhex2_hex c 0 1) by reflexivity. change (2 ^ (4 * 0)) with 1.
  rewrite N.div_1_r. now apply N.mod_small.
Qed.

Lemma unhex4_hex4 c :
  c < 65536 ->
  unhex4 (hexdigit (nibble c 3)) (hexdigit (nibble c 2))
         (hexdigit (nibble c 1)) (hexdigit (nibble c 0)) = c.
Proof.
  intros Hc. unfold unhex4.
  rewrite (unhex2_hex c 0 1), (unhex2_hex c 2 3) by reflexivity.
  change (2 ^ (4 * 0)) with 1. change (2 ^ (4 * 2)) with 256.
  rewrite N.div_1_r.
  pose proof (N.Div0.div_mod c 256).
  pose proof (N.mod_lt c 256).
  assert (c / 256 < 256) by (apply N.Div0.div_lt_upper_bound; lia).
  rewrite (N.mod_small (c / 256)) by assumption. lia.
Qed.

Lemma unhex8_hex8 c :
  c < 4294967296 ->
  65536 * unhex4 (hexdigit (nibble c 7)) (hexdigit (nibble c 6))
                 (hexdigit (nibble c 5)) (hexdigit (nibble c 4))
  + unhex4 (hexdigit (nibble c 3)) (hexdigit (nibble c 2))
           (hexdigit (nibble c 1)) (hexdigit (nibble c 0)) = c.
Proof.
  intros Hc. unfold unhex4.
  rewrite (unhex2_hex c 0 1), (unhex2_hex c 2 3), (unhex2_hex c 4 5),
    (unhex2_hex c 6 7) by reflexivity.
  change (2 ^ (4 * 0)) with 1. change (2 ^ (4 * 2)) with 256.
  change (2 ^ (4 * 4)) with 65536. change (2 ^ (4 * 6)) with 16777216.
  rewrite N.div_1_r.
  pose proof (N.Div0.div_mod c 256).
  pose proof (N.Div0.div_mod (c / 256) 256).
  pose proof (N.Div0.div_mod (c / 256 / 256) 256).
  pose proof (N.mod_lt c 256).
  pose proof (N.mod_lt (c / 256) 256).
  pose proof (N.mod_lt (c / 256 / 256) 256).
  assert (E2 : c / 65536 = c / 256 / 256) by (now rewrite N.Div0.div_div).
  assert (E3 : c / 16777216 = c / 256 / 256 / 256) by (now rewrite !N.Div0.div_div).
  assert (c / 16777216 < 256) by (apply N.Div0.div_lt_upper_bound; lia).
  rewrite (N.mod_small (c / 16777216)) by assumption.
  rewrite E2, E3 in *. lia.
Qed.

Lemma unescape1_plain c r : c <> 92 -> unescape1 (c :: r) = Some (c, r).
Proof.
  intros Hc. unfold unescape1.
  destruct c as [|p]; [reflexivity|].
  do 7 (try destruct p as [p|p|]); try reflexivity; congruence.
Qed.

(** One step of the escaping can be read back. *)
Lemma unescape1_repr_char q ch r :
  q = ch_dquote \/ q = ch_squote -> ch < 4294967296 ->
  unescape1 (repr_char isprintable q ch ++ r) = Some (ch, r).
Proof.
  intros Hq Hch. unfold repr_char.
  destruct ((ch =? q) || (ch =? ch_backslash)) eqn:E1.
  { apply orb_true_iff in E1 as [E|E]; apply N.eqb_eq in E; subst ch.
    - destruct Hq; subst q; reflexivity.
    - reflexivity. }
  apply orb_false_iff in E1 as [Eq Eb]. apply N.eqb_neq in Eq, Eb.
  destruct (ch =? 9) eqn:E2; [apply N.eqb_eq in E2; subst; reflexivity|].
  destruct (ch =? 10) eqn:E3; [apply N.eqb_eq in E3; subst; reflexivity|].
  destruct (ch =? 13) eqn:E4; [apply N.eqb_eq in E4; subst; reflexivity|].
  destruct ((ch <? 32) || (ch =? 127)) eqn:E5.
  { assert (ch < 256).
    { apply orb_true_iff in E5 as [E|E];
        [apply N.ltb_lt in E|apply N.eqb_eq in E]; lia. }
    cbn [app hex2]. cbn [unescape1]. now rewrite unhex2_hex2. }
  destruct (ch <? 127) eqn:E6; [now apply unescape1_plain|].
  destruct (negb (isprintable ch)); [|now apply unescape1_plain].
  destruct (ch <=? 255) eqn:E7.
  { apply N.leb_le in E7. cbn [app hex2 unescape1].
    rewrite unhex2_hex2 by lia. reflexivity. }
  destruct (ch <=? 65535) eqn:E8.
  { apply N.leb_le in E8. cbn [app hex4 unescape1].
    rewrite unhex4_hex4 by lia. reflexivity. }
  cbn [app hex8 unescape1]. now rewrite unhex8_hex8.
Qed.

Lemma repr_char_inj q a b r1 r2 :
  q = ch_dquote \/ q = ch_squote -> a < 4294967296 -> b < 4294967296 ->
  repr_char isprintable q a ++ r1 = repr_char isprintable q b ++ r2 ->
  a = b /\ r1 = r2.
Proof.
  intros Hq Ha Hb E.
  pose proof (unescape1_repr_char q a r1 Hq Ha) as Ua.
  pose proof (unescape1_repr_char q b r2 Hq Hb) as Ub.
  rewrite E in Ua. rewrite Ua in Ub. now inversion Ub.
Qed.

(** An escaped character never starts with the quote. *)
Lemma repr_char_not_quote q a r r' :
  q = ch_dquote \/ q = ch_squote -> a < 4294967296 ->
  repr_char isprintable q a ++ r <> q :: r'.
Proof.
  intros Hq Ha E.
  pose proof (unescape1_repr_char q a r Hq Ha) as Ua.
  rewrite E in Ua.
  rewrite unescape1_plain in Ua by (destruct Hq; subst q; discriminate).
  inversion Ua; subst a. clear Ua.
  unfold repr_char in E. rewrite N.eqb_refl in E. cbn in E.
  destruct Hq; subst q; discriminate.
Qed.

Lemma wf_strb_lt s c : wf_strb s = true -> c ∈ s -> c < 4294967296.
Proof.
  unfold wf_strb. rewrite forallb_forall. intros H Hc.
  apply list_elem_of_In in Hc. apply H in Hc. apply N.ltb_lt in Hc. lia.
Qed.

Lemma repr_quote_cases s : repr_quote s = ch_dquote \/ repr_quote s = ch_squote.
Proof. unfold repr_quote. destruct (_ && _); auto. Qed.

Lemma repr_body_inj q s s' r1 r2 :
  q = ch_dquote \/ q = ch_squote ->
  wf_strb s = true -> wf_strb s' = true ->
  repr_body isprintable q s ++ q :: r1 = repr_body isprintable q s' ++ q :: r2 ->
  s = s' /\ r1 = r2.
Proof.
  intros Hq. revert s'.
  induction s as [|a s IH]; intros [|b s'] Hs Hs' E; cbn in *.
  - now inversion E.
  - symmetry in E. rewrite <- app_assoc in E.
    apply repr_char_not_quote in E; [done|done|].
    apply (wf_strb_lt (b :: s')); [done|left].
  - rewrite <- app_assoc in E.
    apply repr_char_not_quote in E; [done|done|].
    apply (wf_strb_lt (a :: s)); [done|left].
  - rewrite <- !app_assoc in E.
    apply andb_true_iff in Hs as [Ha Hs], Hs' as [Hb Hs'].
    apply N.ltb_lt in Ha, Hb.
    apply repr_char_inj in E as [-> E]; [|done|lia|lia].
    apply IH in E as [-> ->]; done.
Qed.

(** [repr] of a [str] is injective, whatever text follows. *)
Lemma repr_str_inj s s' r1 r2 :
  wf_strb s = true -> wf_strb s' = true ->
  repr_str isprintable s ++ r1 = repr_str isprintable s' ++ r2 ->
  s = s' /\ r1 = r2.
Proof.
  intros Hs Hs' E. unfold repr_str in E. cbn in E.
  injection E as Eq E. rewrite <- Eq in E.
  rewrite <- !app_assoc in E. cbn in E.
  now apply repr_body_inj in E; [|apply repr_quote_cases|..].
Qed.

(** *** Integers *)

Lemma uint_digits_inj u u' r1 r2 :
  no_digit_head r1 -> no_digit_head r2 ->
  uint_digits u ++ r1 = uint_digits u' ++ r2 -> u = u' /\ r1 = r2.
Proof.
  intros H1 H2. revert u'.
  induction u as [|u IH|u IH|u IH|u IH|u IH|u IH|u IH|u IH|u IH|u IH];
    intros [|u'|u'|u'|u'|u'|u'|u'|u'|u'|u'] E; cbn in E;
    try (injection E as E; apply IH in E as [-> ->]; done);
    try discriminate E;
    try (subst r1; cbn in H1; discriminate H1);
    try (subst r2; cbn in H2; discriminate H2).
  done.
Qed.

Lemma uint_digits_head u :
  u <> Decimal.Nil -> exists c t, uint_digits u = c :: t /\ is_digit c = true.
Proof. destruct u; intros H; try done; cbn; eauto. Qed.

Lemma repr_nat_head n : exists c t, repr_nat n = c :: t /\ is_digit c = true.
Proof.
  apply uint_digits_head. destruct n; cbn; [discriminate|].
  apply DecimalPos.Unsigned.to_uint_nonnil.
Qed.

Lemma repr_nat_inj n n' r1 r2 :
  no_digit_head r1 -> no_digit_head r2 ->
  repr_nat n ++ r1 = repr_nat n' ++ r2 -> n = n' /\ r1 = r2.
Proof.
  intros H1 H2 E. apply uint_digits_inj in E as [E ->]; [|done..].
  split; [|done]. now apply DecimalN.Unsigned.to_uint_inj.
Qed.

Lemma repr_int_inj z z' r1 r2 :
  no_digit_head r1 -> no_digit_head r2 ->
  repr_int z ++ r1 = repr_int z' ++ r2 -> z = z' /\ r1 = r2.
Proof.
  intros H1 H2 E. unfold repr_int in E.
  destruct (repr_nat_head (Z.abs_N z)) as (c & t & Ec & Hc).
  destruct (repr_nat_head (Z.abs_N z')) as (c' & t' & Ec' & Hc').
  destruct (z <? 0)%Z eqn:Ez, (z' <? 0)%Z eqn:Ez'; cbn in E.
  - injection E as E. apply repr_nat_inj in E as [E ->]; [|done..].
    apply Z.ltb_lt in Ez, Ez'. split; [lia|done].
  - rewrite Ec' in E. injection E as E _. subst c'. discriminate Hc'.
  - rewrite Ec in E. injection E as E _. subst c. discriminate Hc.
  - apply repr_nat_inj in E as [E ->]; [|done..].
    apply Z.ltb_ge in Ez, Ez'. split; [lia|done].
Qed.

(** *** Induction on values, with the hypothesis for every member of a
    list and of a dict *)

Lemma json_rect' (P : json -> Prop) :
  P JNull -> (forall b, P (JBool b)) -> (forall z, P (JInt z)) ->
  (forall s, P (JStr s)) ->
  (forall l, Forall P l -> P (JList l)) ->
  (forall d, Forall (fun kv => P kv.2) d -> P (JDict d)) ->
  forall v, P v.
Proof.
  intros HN HB HI HS HL HD.
  fix IH 1. intros [ |b|z|s|l|d].
  - exact HN.
  - apply HB.
  - apply HI.
  - apply HS.
  - apply HL. induction l as [|x l IHl]; constructor; [apply IH|exact IHl].
  - apply HD. induction d as [|[k x] d IHd]; constructor; [apply IH|exact IHd].
Qed.

(** *** The first character of a [repr] tells the kind of the value *)

Lemma digit_kind c : is_digit c = true -> char_kind c = 2.
Proof.
  intros Hc. unfold char_kind. rewrite Hc.
  unfold is_digit, in_range in Hc.
  apply andb_true_iff in Hc as [H1 H2]. apply N.leb_le in H1, H2.
  destruct (c =? 78) eqn:E1; [apply N.eqb_eq in E1; lia|].
  destruct (c =? 84) eqn:E2; [apply N.eqb_eq in E2; lia|].
  destruct (c =? 70) eqn:E3; [apply N.eqb_eq in E3; lia|].
  cbn. now rewrite orb_true_r.
Qed.

Lemma py_repr_head v :
  exists c t, py_repr isprintable v = c :: t /\ char_kind c = json_kind v.
Proof.
  destruct v as [ |[|]|z|s|l|d]; cbn; eauto.
  - unfold repr_int. destruct (repr_nat_head (Z.abs_N z)) as (c & t & -> & Hc).
    destruct (z <? 0)%Z; [eauto|].
    exists c, t. split; [done|]. now apply digit_kind.
  - unfold repr_str. destruct (repr_quote_cases s) as [-> | ->]; eauto.
Qed.

Lemma py_repr_kind v w r1 r2 :
  py_repr isprintable v ++ r1 = py_repr isprintable w ++ r2 ->
  json_kind v = json_kind w.
Proof.
  destruct (py_repr_head v) as (c & t & -> & <-).
  destruct (py_repr_head w) as (c' & t' & -> & <-).
  intros E. now injection E as -> _.
Qed.

Lemma py_repr_not_close v r close r' :
  char_kind close = 6 -> py_repr isprintable v ++ r <> close :: r'.
Proof.
  destruct (py_repr_head v) as (c & t & -> & Hk). intros Hc E.
  injection E as -> _. rewrite Hc in Hk. destruct v; discriminate.
Qed.

(** *** Comma-separated sequences *)

Section Sequences.
Context {A : Type} (f : A -> pystr) (ok : A -> Prop) (close : N).
Hypothesis close_kind : is_digit close = false /\ close <> 44.
Hypothesis f_not_close : forall a r r', f a ++ r <> close :: r'.

Lemma join_tail_inj l l' r1 r2 :
  Forall (inj_at f ok) l -> Forall ok l -> Forall ok l' ->
  flat_map (fun y => comma_sp ++ y) (map f l) ++ close :: r1
  = flat_map (fun y => comma_sp ++ y) (map f l') ++ close :: r2 ->
  l = l' /\ r1 = r2.
Proof.
  intros HP. revert l'.
  induction HP as [|a l Ha HP IH]; intros [|b l'] Hl Hl' E; cbn in E.
  - now injection E as ->.
  - injection E as E _. destruct close_kind; congruence.
  - injection E as E _. destruct close_kind; congruence.
  - injection E as E. rewrite <- !app_assoc in E.
    inversion Hl; subst. inversion Hl'; subst.
    apply Ha in E as [-> E]; [|done|done|..].
    + apply IH in E as [-> ->]; done.
    + destruct (map f l); cbn; [apply close_kind|done].
    + destruct (map f l'); cbn; [apply close_kind|done].
Qed.

Lemma join_sep_inj l l' r1 r2 :
  Forall (inj_at f ok) l -> Forall ok l -> Forall ok l' ->
  join_sep (map f l) ++ close :: r1 = join_sep (map f l') ++ close :: r2 ->
  l = l' /\ r1 = r2.
Proof.
  intros HP Hl Hl' E.
  destruct l as [|a l], l' as [|b l']; cbn in E.
  - now injection E as ->.
  - symmetry in E. rewrite <- app_assoc in E. now apply f_not_close in E.
  - rewrite <- app_assoc in E. now apply f_not_close in E.
  - rewrite <- !app_assoc in E.
    inversion HP; subst. inversion Hl; subst. inversion Hl'; subst.
    match goal with H : inj_at f ok a |- _ => apply H in E as [-> E] end;
      [|done|done|..].
    + apply join_tail_inj in E as [-> ->]; done.
    + destruct (map f l); cbn; [apply close_kind|done].
    + destruct (map f l'); cbn; [apply close_kind|done].
Qed.
End Sequences.

(** *** [repr] is injective on values *)

Lemma forallb_Forall {A} (p : A -> bool) l :
  forallb p l = true -> Forall (fun x => p x = true) l.
Proof.
  intros H. apply Forall_forall. intros x Hx.
  apply (proj1 (forallb_forall _ _) H). now apply list_elem_of_In.
Qed.

Lemma py_repr_inj v : inj_at (py_repr isprintable) (fun v => wf_json v = true) v.
Proof.
  induction v as [ |b|z|s|l IH|d IH] using json_rect';
    intros w r1 r2 Hv Hw H1 H2 E;
    pose proof (py_repr_kind _ _ _ _ E) as K;
    destruct w as [ |b'|z'|s'|l'|d']; try discriminate K; clear K.
  - cbn in E. now injection E as ->.
  - destruct b, b'; cbn in E; try discriminate E; now injection E as ->.
  - cbn in E. now apply repr_int_inj in E as [-> ->].
  - cbn in *. now apply repr_str_inj in E as [-> ->].
  - cbn in E. injection E as E. rewrite <- !app_assoc in E. cbn in E.
    apply (join_sep_inj _ (fun v => wf_json v = true)) in E as [-> ->].
    + done.
    + split; [done|discriminate].
    + intros a r r'. now apply py_repr_not_close.
    + done.
    + now apply forallb_Forall.
    + now apply forallb_Forall.
  - cbn in E. injection E as E. rewrite <- !app_assoc in E. cbn in E.
    apply (join_sep_inj (repr_entry isprintable) wf_entry) in E as [-> ->].
    + done.
    + split; [done|discriminate].
    + intros [k x] r r' E'. unfold repr_entry, repr_str in E'. cbn in E'.
      injection E' as E' _.
      destruct (repr_quote_cases k) as [Q|Q]; rewrite Q in E'; discriminate.
    + eapply Forall_impl; [exact IH|].
      intros [k x] Hx [k' x'] q1 q2 Hk Hk' Hq1 Hq2 E'. cbn in Hx.
      unfold wf_entry in Hk, Hk'.
      apply andb_true_iff in Hk as [Hk Hx1], Hk' as [Hk' Hx2].
      unfold repr_entry in E'. rewrite <- !app_assoc in E'.
      apply repr_str_inj in E' as [-> E']; [|done..].
      cbn in E'. injection E' as E'.
      apply Hx in E' as [-> ->]; done.
    + now apply (forallb_Forall _ d).
    + now apply (forallb_Forall _ d').
Qed.

Lemma repr_pair_inj p : inj_at (repr_pair isprintable) wf_pair p.
Proof.
  destruct p as [a b]. intros [a' b'] r1 r2 Hp Hp' _ _ E.
  unfold wf_pair in Hp, Hp'. cbn in Hp, Hp'.
  apply andb_true_iff in Hp as [Ha Hb], Hp' as [Ha' Hb'].
  unfold repr_pair in E. cbn in E. injection E as E.
  rewrite <- !app_assoc in E.
  apply py_repr_inj in E as [-> E]; [|done..].
  cbn in E. injection E as E. rewrite <- !app_assoc in E.
  apply py_repr_inj in E as [-> E]; [|done..].
  now injection E as ->.
Qed.

(** [str] of a list of pairs determines the list. *)
Lemma str_pairs_inj l l' :
  Forall wf_pair l -> Forall wf_pair l' ->
  str_pairs isprintable l = str_pairs isprintable l' -> l = l'.
Proof.
  intros Hl Hl' E. unfold str_pairs in E. injection E as E.
  apply (join_sep_inj _ wf_pair) in E as [-> _].
  - done.
  - split; [done|discriminate].
  - intros p r r' E'. discriminate E'.
  - apply Forall_forall. intros p _. apply repr_pair_inj.
  - done.
  - done.
Qed.

(** ** The change detector *)

Lemma slot_keys_fields slots : slot_keys slots = map slot_key slots.
Proof. reflexivity. Qed.

Lemma wf_slots_pairs slots :
  Forall (fun s => wf_slot s = true) slots -> Forall wf_pair (map slot_key slots).
Proof. intros H. apply Forall_fmap. exact H. Qed.

(** C1: a non-empty new snapshot whose sequence of (date, start_time)
    pairs differs from the stored one's is reported as changed, and the
    stored snapshot becomes the new one. *)
Theorem has_new_slots_changed (self : monitor) (current_slots : list slot) :
  Forall (fun s => wf_slot s = true) current_slots ->
  Forall (fun s => wf_slot s = true) (last_slots self) ->
  current_slots <> [] ->
  map slot_key current_slots <> map slot_key (last_slots self) ->
  has_new_slots isprintable self current_slots
  = (true, {| subscribers := subscribers self; last_slots := current_slots |}).
Proof.
  intros Hc Hl Hne Hk. unfold has_new_slots.
  rewrite bool_decide_eq_false_2 by exact Hne.
  unfold pystr_eqb. rewrite bool_decide_eq_false_2; [reflexivity|].
  intros E. apply Hk. rewrite !slot_keys_fields in E.
  apply str_pairs_inj in E; auto using wf_slots_pairs.
Qed.

(** C2: an empty new snapshot is never a change and leaves the stored
    snapshot as it is. *)
Theorem has_new_slots_empty (self : monitor) :
  has_new_slots isprintable self [] = (false, self).
Proof. reflexivity. Qed.

(** C3: two new snapshots with the same sequence of (date, start_time)
    pairs get the same answer; a new snapshot with the stored sequence
    of pairs is no change and leaves the state as it is, whatever its
    other fields hold. *)
Theorem has_new_slots_same_keys (self : monitor) (a b : list slot) :
  map slot_key a = map slot_key b ->
  (has_new_slots isprintable self a).1 = (has_new_slots isprintable self b).1
  /\ (map slot_key a = map slot_key (last_slots self) ->
      has_new_slots isprintable self a = (false, self)).
Proof.
  intros E.
  assert (Hnil : bool_decide (a = []) = bool_decide (b = [])).
  { destruct a, b; try discriminate E; reflexivity. }
  split.
  - unfold has_new_slots. rewrite Hnil, !slot_keys_fields, E.
    destruct (bool_decide (b = [])); [reflexivity|].
    now destruct (negb _).
  - intros El. unfold has_new_slots.
    destruct (bool_decide (a = [])); [reflexivity|].
    rewrite !slot_keys_fields, El. unfold pystr_eqb.
    now rewrite bool_decide_eq_true_2.
Qed.

(** ** Dates *)









(** ** The formatter *)

Lemma render_slot_unfold i s :
  render_slot isprintable i s
  = date_obj ← strptime_ymd (date s); Some (entry_of isprintable i s date_obj).
Proof. reflexivity. Qed.


Lemma render_slot_unparsed i s :
  strptime_ymd (date s) = None -> render_slot isprintable i s = None.
Proof. intros H. rewrite render_slot_unfold, H. reflexivity. Qed.

Lemma format_loop_positions slots : forall i message,
  format_loop isprintable i slots message
  = message ++ concat (imap (fun k s => default [] (render_slot isprintable (i + k) s)) slots).
Proof.
  induction slots as [|s slots IH]; intros i message; cbn.
  - now rewrite app_nil_r.
  - rewrite Nat.add_0_r.
    replace (imap ((fun k s0 => default [] (render_slot isprintable (i + k) s0)) ∘ S) slots)
      with (imap (fun k s0 => default [] (render_slot isprintable (S i + k) s0)) slots).
    2:{ apply imap_ext. intros k x _. cbn. now rewrite Nat.add_succ_r. }
    destruct (render_slot isprintable i s) as [entry|]; rewrite IH; cbn.
    + now rewrite <- app_assoc.
    + reflexivity.
Qed.




(** The message of a non-empty snapshot, position by position. *)
Lemma format_slots_message_positions clock slots :
  slots <> [] ->
  format_slots_message isprintable clock slots
  = msg_header ++ concat (position_texts isprintable slots)
    ++ (if (15 <? length slots)%nat then more_line (length slots - 15) else [])
    ++ checked_line clock.
Proof.
  intros Hne. unfold format_slots_message.
  rewrite bool_decide_eq_false_2 by exact Hne.
  cbn zeta. rewrite format_loop_positions. unfold position_texts.
  destruct (15 <? length slots)%nat; now rewrite <- !app_assoc.
Qed.




(** ** The notifier *)

Section Notifier.
Variable send_message : Z -> pystr -> delivery.
Variable message : pystr.

Lemma notify_loop_step u users st :
  notify_loop str_lower send_message message (u :: users) st
  = if dropped str_lower send_message message u
    then subs ← set_remove u (ns_subscribers st);
         notify_loop str_lower send_message message users (visit send_message message st u subs)
    else notify_loop str_lower send_message message users
           (visit send_message message st u (ns_subscribers st)).
Proof.
  cbn [notify_loop]. unfold dropped, visit, delivered.
  destruct (send_message u message) as [|text]; [reflexivity|].
  destruct (unreachable str_lower text); reflexivity.
Qed.

(** The loop runs to its end when the users still to visit are distinct
    members of the set; it tries them all, counts the deliveries and
    removes the unreachable ones. *)
Lemma notify_loop_runs users : forall st,
  NoDup users ->
  (forall u, u ∈ users -> u ∈ ns_subscribers st) ->
  exists st',
    notify_loop str_lower send_message message users st = Ok st'
    /\ attempts st' = attempts st ++ users
    /\ successful_sends st'
       = (successful_sends st + length (filter (fun u => delivered send_message message u = true) users))%nat
    /\ ns_subscribers st'
       = ns_subscribers st ∖ list_to_set (filter (fun u => dropped str_lower send_message message u = true) users).
Proof.
  induction users as [|u users IH]; intros st Hnd Hin.
  - exists st. cbn. rewrite app_nil_r, Nat.add_0_r.
    split; [done|]. split; [done|]. split; [done|]. now rewrite difference_empty_L.
  - apply NoDup_cons in Hnd as [Hu Hnd].
    rewrite notify_loop_step, !filter_cons.
    assert (Hd : delivered send_message message u = true -> dropped str_lower send_message message u = false).
    { unfold delivered, dropped. now destruct (send_message u message). }
    destruct (dropped str_lower send_message message u) eqn:Ed.
    + unfold set_remove. rewrite bool_decide_eq_true_2 by (apply Hin; left).
      cbn [mbind result_bind].
      destruct (IH (visit send_message message st u (ns_subscribers st ∖ {[u]}))) as (st' & E & Ha & Hs & Hm);
        [done|cbn; intros x Hx; specialize (Hin x); set_solver|].
      exists st'. split; [done|]. cbn in Ha, Hs, Hm.
      rewrite (decide_True (P := true = true)) by done.
      destruct (delivered send_message message u) eqn:Edl; [now specialize (Hd eq_refl)|].
      rewrite (decide_False (P := false = true)) by done.
      split; [now rewrite Ha, <- app_assoc|]. split; [done|].
      rewrite Hm. set_solver.
    + destruct (IH (visit send_message message st u (ns_subscribers st))) as (st' & E & Ha & Hs & Hm);
        [done|cbn; intros x Hx; specialize (Hin x); set_solver|].
      exists st'. split; [done|]. cbn in Ha, Hs, Hm.
      rewrite (decide_False (P := false = true)) by done.
      split; [now rewrite Ha, <- app_assoc|]. split; [|done].
      rewrite Hs. destruct (delivered send_message message u).
      * rewrite decide_True by done. cbn. lia.
      * now rewrite decide_False by done.
Qed.
End Notifier.

Lemma send_notifications_runs send_message clock self slots :
  let message := format_slots_message isprintable clock slots in
  exists out,
    send_notifications isprintable str_lower send_message clock self slots = Ok out
    /\ returned out = JNull
    /\ tried out = elements (subscribers self)
    /\ subscribers (monitor_after out)
       = subscribers self
           ∖ list_to_set (filter (fun u => dropped str_lower send_message message u = true)
                                 (elements (subscribers self)))
    /\ last_slots (monitor_after out) = last_slots self
    /\ (subscribers self <> ∅ ->
        logged_counts out
        = Some (length (filter (fun u => delivered send_message message u = true)
                               (elements (subscribers self))),
                size (subscribers (monitor_after out)))).
Proof.
  intros message. unfold send_notifications.
  destruct (bool_decide (subscribers self = ∅)) eqn:Ee.
  - apply bool_decide_eq_true in Ee. eexists. split; [reflexivity|].
    cbn. rewrite Ee, elements_empty. cbn.
    repeat split; done.
  - apply bool_decide_eq_false in Ee.
    destruct (notify_loop_runs send_message message (elements (subscribers self))
                {| ns_subscribers := subscribers self;
                   successful_sends := 0; attempts := [] |})
      as (st' & E & Ha & Hs & Hm).
    { apply NoDup_elements. }
    { intros u Hu. cbn. now apply elem_of_elements. }
    fold message. rewrite E. cbn [mbind result_bind].
    eexists. split; [reflexivity|]. cbn in *.
    repeat split; try done. intros _. now rewrite Hs.
Qed.



(** ** The parser *)

Lemma dict_get_get_or v key dflt :
  is_dict v = true -> dict_get v key dflt = Ok (get_or v key dflt).
Proof. destruct v; try discriminate. reflexivity. Qed.

Lemma py_iter_items v : is_list v = true -> py_iter v = Ok (items v).
Proof. destruct v; try discriminate. reflexivity. Qed.

Lemma slot_selected_ok entry :
  is_dict entry = true -> slot_selected entry = Ok (available_regular entry).
Proof.
  intros H. unfold slot_selected, available_regular.
  rewrite !dict_get_get_or by exact H. cbn [mbind result_bind].
  destruct (truthy _); reflexivity.
Qed.

Lemma make_slot_ok day_date entry :
  is_dict entry = true -> is_dict (get_or entry k_price (JDict [])) = true ->
  make_slot day_date entry = Ok (record_of day_date entry).
Proof.
  intros H Hp. unfold make_slot.
  repeat (rewrite dict_get_get_or by assumption; cbn [mbind result_bind]).
  reflexivity.
Qed.

Lemma parse_day_slots_ok day_date entries : forall acc,
  forallb entry_ok entries = true ->
  parse_day_slots day_date entries acc
  = Ok (acc ++ map (record_of day_date)
                   (filter (fun e => available_regular e = true) entries)).
Proof.
  induction entries as [|e entries IH]; intros acc Hok; cbn [parse_day_slots].
  - now rewrite app_nil_r.
  - cbn [forallb] in Hok. apply andb_true_iff in Hok as [He Hok].
    unfold entry_ok in He. apply andb_true_iff in He as [Hd Hp].
    rewrite slot_selected_ok by exact Hd. cbn [mbind result_bind].
    rewrite filter_cons.
    destruct (available_regular e) eqn:Es.
    + rewrite make_slot_ok by (cbn in Hp; done). cbn [mbind result_bind].
      rewrite IH by exact Hok. rewrite decide_True by done.
      now rewrite <- app_assoc.
    + rewrite IH by exact Hok. now rewrite decide_False by done.
Qed.

Lemma parse_days_ok days : forall acc,
  forallb day_ok days = true ->
  parse_days days acc = Ok (acc ++ flat_map day_records days).
Proof.
  induction days as [|day days IH]; intros acc Hok; cbn [parse_days].
  - now rewrite app_nil_r.
  - cbn [forallb] in Hok. apply andb_true_iff in Hok as [Hday Hok].
    unfold day_ok in Hday.
    apply andb_true_iff in Hday as [Hday He].
    apply andb_true_iff in Hday as [Hd Hl].
    rewrite !dict_get_get_or by exact Hd. cbn [mbind result_bind].
    rewrite py_iter_items by exact Hl. cbn [mbind result_bind].
    rewrite parse_day_slots_ok by exact He. cbn [mbind result_bind].
    rewrite IH by exact Hok. cbn [flat_map]. unfold day_records at 2.
    now rewrite <- app_assoc.
Qed.

(** C8, as the code has it: on a response of the expected shape the
    parser returns the records of exactly the entries whose
    availability flag is a true value and whose type is ['regular'], in
    order; an object with neither list of days gives the empty
    snapshot. *)
Theorem parse_slots_selects (data : json) :
  well_shaped data = true ->
  parse_slots data = Ok (snapshot_of data)
  /\ (forall r, r ∈ snapshot_of data
        <-> exists day entry,
              day ∈ items (slot_list data)
              /\ entry ∈ day_entries day
              /\ available_regular entry = true
              /\ r = record_of (get_or day k_date (JStr [])) entry)
  /\ (get_or data k_slots (JList []) = JList [] ->
      get_or data k_available_slots (JList []) = JList [] ->
      parse_slots data = Ok []).
Proof.
  intros Hw. unfold well_shaped in Hw.
  apply andb_true_iff in Hw as [Hw Hdays].
  apply andb_true_iff in Hw as [Hd Hl].
  assert (E : parse_slots data = Ok (snapshot_of data)).
  { unfold parse_slots. rewrite !dict_get_get_or by exact Hd.
    cbn [mbind result_bind].
    assert (Es : (if negb (truthy (get_or data k_slots (JList [])))
                  then Ok (get_or data k_available_slots (JList []))
                  else Ok (get_or data k_slots (JList [])))
                 = Ok (slot_list data)).
    { unfold slot_list. destruct (truthy _); reflexivity. }
    rewrite Es. cbn [mbind result_bind].
    rewrite py_iter_items by exact Hl. cbn [mbind result_bind].
    now rewrite parse_days_ok. }
  split; [exact E|]. split.
  - intros r. unfold snapshot_of. rewrite list_elem_of_In, in_flat_map.
    split.
    + intros (day & Hday & Hr). apply list_elem_of_In in Hday, Hr.
      unfold day_records in Hr. apply list_elem_of_fmap in Hr as (e & -> & He).
      apply list_elem_of_filter in He as [Hs He]. eauto 10.
    + intros (day & e & Hday & He & Hs & ->). exists day.
      split; [now apply list_elem_of_In|]. apply list_elem_of_In.
      unfold day_records. apply list_elem_of_fmap. exists e. split; [done|].
      now apply list_elem_of_filter.
  - intros E1 E2. rewrite E. unfold snapshot_of, slot_list.
    rewrite E1, E2. reflexivity.
Qed.

(** ** The fetcher *)

Lemma only_ok {A} (a : A) : only_exceptions (Ok a).
Proof. intros e H. discriminate H. Qed.

Lemma only_raise {A} e : is_Exception e = true -> only_exceptions (@Raise A e).
Proof. intros He e' [= <-]. exact He. Qed.

Lemma only_bind {A B} (m : result A) (k : A -> result B) :
  only_exceptions m -> (forall a, m = Ok a -> only_exceptions (k a)) ->
  only_exceptions (m ≫= k).
Proof.
  intros Hm Hk e. destruct m as [a|e']; cbn.
  - now apply Hk.
  - intros [= <-]. now apply Hm.
Qed.

Lemma only_if {A} (b : bool) (m1 m2 : result A) :
  only_exceptions m1 -> only_exceptions m2 ->
  only_exceptions (if b then m1 else m2).
Proof. now destruct b. Qed.

Lemma only_try_except {A} (body : result A) handler :
  only_exceptions body -> (forall e, only_exceptions (handler e)) ->
  only_exceptions (try_except body handler).
Proof.
  intros Hb Hh e. destruct body as [a|e']; cbn; [discriminate|].
  destruct (is_Exception e') eqn:Ee; [apply Hh|].
  intros [= <-]. now apply Hb.
Qed.

(** A [try] whose handler returns catches every exception derived from
    [Exception]. *)
Lemma try_except_returns {A} (body : result A) (dflt : A) :
  only_exceptions body ->
  exists r, try_except body (fun _ => Ok dflt) = Ok r
            /\ (forall e, body = Raise e -> r = dflt).
Proof.
  intros Hb. destruct body as [a|e]; cbn.
  - exists a. split; [reflexivity|discriminate].
  - rewrite (Hb e eq_refl). exists dflt. split; [reflexivity|done].
Qed.

Lemma only_dict_get v key dflt : only_exceptions (dict_get v key dflt).
Proof. destruct v; try apply only_ok; now apply only_raise. Qed.

Lemma only_dict_item v key : only_exceptions (dict_item v key).
Proof.
  destruct v; cbn; try (now apply only_raise).
  destruct (assoc key d); [apply only_ok|now apply only_raise].
Qed.

Lemma only_py_iter v : only_exceptions (py_iter v).
Proof. destruct v; try apply only_ok; now apply only_raise. Qed.

Lemma only_py_lower v : only_exceptions (py_lower str_lower v).
Proof. destruct v; try apply only_ok; now apply only_raise. Qed.

Ltac only_leaf :=
  first [ apply only_ok
        | apply only_dict_get
        | apply only_dict_item
        | apply only_py_iter
        | apply only_py_lower ].

Ltac only_binds := repeat (apply only_bind; [only_leaf|intros ? _]).

Lemma only_slot_selected entry : only_exceptions (slot_selected entry).
Proof.
  unfold slot_selected. only_binds. apply only_if; [|only_leaf].
  only_binds. only_leaf.
Qed.

Lemma only_make_slot day_date entry : only_exceptions (make_slot day_date entry).
Proof. unfold make_slot. only_binds. only_leaf. Qed.

Lemma only_parse_day_slots day_date entries :
  forall acc, only_exceptions (parse_day_slots day_date entries acc).
Proof.
  induction entries as [|e entries IH]; intros acc; cbn [parse_day_slots].
  - apply only_ok.
  - apply only_bind; [apply only_slot_selected|].
    intros sel _. apply only_if; [|apply IH].
    apply only_bind; [apply only_make_slot|].
    intros item _. apply IH.
Qed.

Lemma only_parse_days days : forall acc, only_exceptions (parse_days days acc).
Proof.
  induction days as [|day days IH]; intros acc; cbn [parse_days].
  - apply only_ok.
  - only_binds. apply only_bind; [apply only_parse_day_slots|].
    intros acc' _. apply IH.
Qed.

Lemma only_parse_slots data : only_exceptions (parse_slots data).
Proof.
  unfold parse_slots. only_binds.
  apply only_bind; [apply only_if; only_leaf|]. intros l _.
  only_binds. apply only_parse_days.
Qed.

Section Fetcher.
Variable http_get : endpoint -> result response.
Hypothesis network : network_errors_only http_get.

Lemma only_fetch ep :
  only_exceptions
    (resp ← http_get ep;
     if (status resp =? 200)%Z
     then (data ← body resp; l ← parse_slots data; Ok (Some l))
     else Ok None).
Proof.
  apply only_bind; [apply network|]. intros resp Hr.
  apply only_if; [|apply only_ok].
  apply only_bind; [now apply (network ep)|]. intros data _.
  apply only_bind; [apply only_parse_slots|]. intros l _. apply only_ok.
Qed.

Lemma only_get_store_slots store_id :
  only_exceptions (get_store_slots isprintable http_get store_id).
Proof.
  apply only_try_except; [apply only_fetch|]. intros e. apply only_ok.
Qed.

Lemma only_direct_slots_check : only_exceptions (direct_slots_check http_get).
Proof.
  apply only_try_except; [apply only_fetch|]. intros e. apply only_ok.
Qed.

Lemma only_search_stores stores :
  only_exceptions (search_stores isprintable str_lower http_get stores).
Proof.
  induction stores as [|store stores IH]; cbn [search_stores].
  - apply only_ok.
  - only_binds. apply only_if; [|exact IH].
    only_binds. apply only_bind; [apply only_get_store_slots|].
    intros slots _. apply only_ok.
Qed.

Lemma only_check_slots_body :
  only_exceptions (check_slots_body isprintable str_lower http_get).
Proof.
  unfold check_slots_body.
  apply only_bind; [apply network|]. intros resp Hr.
  apply only_bind.
  - apply only_if; [|apply only_ok].
    apply only_bind; [now apply (network SearchStores)|]. intros data _.
    only_binds. apply only_bind; [apply only_if; only_leaf|]. intros stores _.
    only_binds. apply only_search_stores.
  - intros [slots|] _; [apply only_ok|apply only_direct_slots_check].
Qed.
End Fetcher.

(** C9: when the failures of the network and of parsing are errors
    derived from [Exception], [check_slots] raises nothing: it returns a
    snapshot or [None], and [None] whenever its body raises. *)
Theorem check_slots_never_raises (http_get : endpoint -> result response) :
  network_errors_only http_get ->
  exists r : option (list slot),
    check_slots isprintable str_lower http_get = Ok r
    /\ (forall e, check_slots_body isprintable str_lower http_get = Raise e ->
                  r = None).
Proof.
  intros Hn. unfold check_slots.
  apply try_except_returns. now apply only_check_slots_body.
Qed.

End Facts.

(** ** Examples *)

Lemma has_new_slots_changed_witness :
  has_new_slots all_printable (watching [slot_a; slot_b]) [slot_b; slot_a]
  = (true, watching [slot_b; slot_a]).
Proof.
  apply (has_new_slots_changed all_printable (watching [slot_a; slot_b])
           [slot_b; slot_a]).
  - repeat constructor.
  - repeat constructor.
  - discriminate.
  - vm_compute. discriminate.
Defined.

Lemma has_new_slots_same_keys_witness :
  (has_new_slots all_printable (watching [slot_a]) [slot_a_dearer]).1
  = (has_new_slots all_printable (watching [slot_a]) [slot_a]).1
  /\ (map slot_key [slot_a_dearer] = map slot_key (last_slots (watching [slot_a])) ->
      has_new_slots all_printable (watching [slot_a]) [slot_a_dearer]
      = (false, watching [slot_a])).
Proof.
  apply (has_new_slots_same_keys all_printable (watching [slot_a])
           [slot_a_dearer] [slot_a]).
  reflexivity.
Defined.






Lemma parse_slots_selects_witness :
  parse_slots slots_response = Ok [slot_morning; slot_noon].
Proof.
  apply (proj1 (parse_slots_selects slots_response eq_refl)).
Defined.

(** C8 fails on a response that is a list: the parser raises. *)
Lemma parse_slots_list_raises : parse_slots (JList []) = Raise AttributeError.
Proof. reflexivity. Qed.

(** A day entry whose price is a number makes the parser raise, too. *)
Example parse_slots_price_number :
  parse_slots
    (JDict [(txt "slots",
             JList [JDict [(txt "slots",
                            JList [JDict [(txt "available", JBool true);
                                          (txt "type", JStr (txt "regular"));
                                          (txt "price", JInt 99)]])]])])
  = Raise AttributeError.
Proof. reflexivity. Qed.

Lemma check_slots_never_raises_witness :
  exists r : option (list slot),
    check_slots all_printable ascii_lower lavka = Ok r
    /\ (forall e, check_slots_body all_printable ascii_lower lavka = Raise e ->
                  r = None).
Proof.
  apply (check_slots_never_raises all_printable ascii_lower lavka).
  intros ep. split.
  - intros e H. destruct ep as [ |store_id| ]; unfold lavka in H;
      try discriminate H.
    destruct (pystr_eqb store_id (txt "7")); discriminate H.
  - intros resp H e Hb.
    destruct ep as [ |store_id| ]; unfold lavka in H.
    + injection H as <-. discriminate Hb.
    + destruct (pystr_eqb store_id (txt "7")); injection H as <-;
        [discriminate Hb|]. now injection Hb as <-.
    + injection H as <-. now injection Hb as <-.
Defined.

Example check_slots_lavka :
  check_slots all_printable ascii_lower lavka = Ok (Some [slot_morning; slot_noon]).
Proof. vm_compute. reflexivity. Qed.

Example check_slots_offline :
  check_slots all_printable ascii_lower offline = Ok None.
Proof. reflexivity. Qed.

(** Without the hypothesis on the errors the call can raise. *)
Example check_slots_cancelled :
  check_slots all_printable ascii_lower cancelled = Raise CancelledError.
Proof. reflexivity. Qed.

Example send_notifications_telegram :
  exists out,
    send_notifications all_printable ascii_lower telegram clock_noon
      (subscribed {[ 7%Z; 42%Z; 100%Z ]}) [slot_a; slot_b] = Ok out
    /\ subscribers (monitor_after out) = {[ 7%Z; 100%Z ]}
    /\ logged_counts out = Some (1%nat, 2%nat).
Proof.
  eexists. split; [vm_compute; reflexivity|].
  split; [|reflexivity].
  apply set_eq. intros x. vm_compute. tauto.
Qed.


(** * Further properties *)

Section More.
Variable isprintable : N -> bool.
Variable str_lower : pystr -> pystr.

(** ** The change detector, called again *)

(** X1: asking twice about the same snapshot answers "no change" the
    second time and leaves the state of the first call. *)
Theorem has_new_slots_twice (self : monitor) (slots : list slot) :
  has_new_slots isprintable (has_new_slots isprintable self slots).2 slots
  = (false, (has_new_slots isprintable self slots).2).
Proof.
  unfold has_new_slots at 2 3.
  destruct (bool_decide (slots = [])) eqn:Ee.
  - cbn [snd]. unfold has_new_slots. now rewrite Ee.
  - cbn zeta.
    destruct (pystr_eqb (str_pairs isprintable (slot_keys slots))
                        (str_pairs isprintable (slot_keys (last_slots self))))
      eqn:Es; cbn [negb snd].
    + unfold has_new_slots. rewrite Ee. cbn zeta. now rewrite Es.
    + unfold has_new_slots. rewrite Ee. cbn zeta. cbn [last_slots].
      unfold pystr_eqb at 1. now rewrite bool_decide_eq_true_2.
Qed.

(** X2: the change detector never touches the subscribers, stores
    nothing when it answers "no change", stores the new snapshot when it
    answers "changed", and never replaces a stored snapshot by an empty
    one. *)
Theorem has_new_slots_keeps (self : monitor) (slots : list slot) :
  let after := has_new_slots isprintable self slots in
  subscribers after.2 = subscribers self
  /\ (after.1 = false -> after.2 = self)
  /\ (after.1 = true -> last_slots after.2 = slots /\ slots <> [])
  /\ (last_slots self <> [] -> last_slots after.2 <> []).
Proof.
  cbn zeta. unfold has_new_slots.
  destruct (bool_decide (slots = [])) eqn:Ee; cbn zeta.
  - repeat split; try done.
  - apply bool_decide_eq_false in Ee.
    destruct (negb _); cbn; repeat split; try done.
Qed.

(** ** The formatter *)

(** X3: the formatter answers with the text for "no slots" exactly on
    the empty snapshot. *)
Theorem format_no_slots_iff (clock : pystr) (slots : list slot) :
  format_slots_message isprintable clock slots = msg_no_slots <-> slots = [].
Proof.
  split.
  - intros E. destruct slots as [|s rest]; [reflexivity|].
    rewrite format_slots_message_positions in E by discriminate.
    discriminate E.
  - intros ->. reflexivity.
Qed.

(** X4: the records after the fifteenth enter the message only through
    their number. *)
Theorem format_ignores_tail (clock : pystr) (a b : list slot) :
  length a = length b -> take 15 a = take 15 b ->
  format_slots_message isprintable clock a
  = format_slots_message isprintable clock b.
Proof.
  intros Hl Ht. unfold format_slots_message. rewrite Hl, Ht.
  replace (bool_decide (a = [])) with (bool_decide (b = [])); [reflexivity|].
  destruct a, b; try discriminate Hl; reflexivity.
Qed.

(** ** Subscribing and unsubscribing *)


(** X6: subscribing and then unsubscribing a user leaves the set
    without that user: exactly the monitor before when the user was not
    subscribed. *)
Theorem subscribe_then_unsubscribe (self : monitor) (user_id : Z) :
  unsubscribe (subscribe self user_id).1 user_id
  = Ok ({| subscribers := subscribers self ∖ {[ user_id ]};
           last_slots := last_slots self |}, msg_unsubscribed)
  /\ (user_id ∉ subscribers self ->
      unsubscribe (subscribe self user_id).1 user_id = Ok (self, msg_unsubscribed)).
Proof.
  assert (E : unsubscribe (subscribe self user_id).1 user_id
              = Ok ({| subscribers := subscribers self ∖ {[ user_id ]};
                       last_slots := last_slots self |}, msg_unsubscribed)).
  { unfold unsubscribe, subscribe, set_remove. cbn [fst subscribers last_slots].
    rewrite !bool_decide_eq_true_2 by set_solver. cbn [mbind result_bind].
    do 3 f_equal. apply leibniz_equiv. set_solver. }
  split; [exact E|]. intros Hu. rewrite E. destruct self as [subs last].
  cbn. do 3 f_equal. apply leibniz_equiv. set_solver.
Qed.

(** X7: subscribing adds the user and nobody else, keeps the stored
    snapshot, and subscribing again changes nothing. *)
Theorem subscribe_adds (self : monitor) (user_id : Z) :
  let after := (subscribe self user_id).1 in
  (forall u, u ∈ subscribers after <-> u = user_id \/ u ∈ subscribers self)
  /\ last_slots after = last_slots self
  /\ subscribe after user_id = subscribe self user_id.
Proof.
  cbn zeta. unfold subscribe. cbn. repeat split.
  - intros H. apply elem_of_union in H as [H|H]; [now right|left].
    now apply elem_of_singleton in H.
  - intros [->|H]; set_solver.
  - do 2 f_equal. apply leibniz_equiv. set_solver.
Qed.

(** X8: a batch sent after [unsubscribe] does not try the user, and a
    batch sent after [subscribe] does. *)
Theorem batch_follows_subscription send_message clock self slots user_id :
  (exists after reply out,
     unsubscribe self user_id = Ok (after, reply)
     /\ send_notifications isprintable str_lower send_message clock after slots
        = Ok out
     /\ user_id ∉ tried out)
  /\ (exists out,
        send_notifications isprintable str_lower send_message clock
          (subscribe self user_id).1 slots = Ok out
        /\ user_id ∈ tried out).
Proof.
  split.
  - assert (exists after reply,
              unsubscribe self user_id = Ok (after, reply)
              /\ user_id ∉ subscribers after) as (after & reply & E & Hs).
    { unfold unsubscribe, set_remove.
      destruct (bool_decide (user_id ∈ subscribers self)) eqn:Ei.
      - cbn [mbind result_bind]. eexists _, _. split; [reflexivity|].
        cbn. set_solver.
      - apply bool_decide_eq_false in Ei. eexists _, _. split; [reflexivity|done]. }
    destruct (send_notifications_runs isprintable str_lower send_message clock
                after slots) as (out & Eo & _ & Ht & _).
    exists after, reply, out. split; [exact E|]. split; [exact Eo|].
    now rewrite Ht, elem_of_elements.
  - destruct (send_notifications_runs isprintable str_lower send_message clock
                (subscribe self user_id).1 slots) as (out & Eo & _ & Ht & _).
    exists out. split; [exact Eo|].
    rewrite Ht, elem_of_elements. cbn. set_solver.
Qed.


(** ** The parser, whenever it returns *)

Lemma dict_get_ok v key dflt x :
  dict_get v key dflt = Ok x -> is_dict v = true /\ x = get_or v key dflt.
Proof. destruct v; try discriminate. cbn. now intros [= <-]. Qed.

Lemma bind_ok {A B} (m : result A) (k : A -> result B) b :
  m ≫= k = Ok b -> exists a, m = Ok a /\ k a = Ok b.
Proof. destruct m as [a|e]; [eauto|discriminate]. Qed.

Lemma slot_selected_returns entry sel :
  slot_selected entry = Ok sel ->
  is_dict entry = true /\ sel = available_regular entry.
Proof.
  intros H. destruct entry; try discriminate H.
  split; [reflexivity|]. rewrite slot_selected_ok in H by reflexivity.
  now injection H as <-.
Qed.

Lemma make_slot_returns day_date entry item :
  make_slot day_date entry = Ok item -> item = record_of day_date entry.
Proof.
  intros H. destruct entry; try discriminate H.
  unfold make_slot in H.
  rewrite !(dict_get_get_or (JDict d)) in H by reflexivity.
  cbn [mbind result_bind] in H.
  unfold record_of.
  destruct (get_or (JDict d) k_price (JDict [])) eqn:Ep; try discriminate H.
  cbn [mbind result_bind dict_get] in H. cbn [get_or].
  now injection H as <-.
Qed.

Lemma parse_day_slots_returns day_date entries : forall acc l,
  parse_day_slots day_date entries acc = Ok l ->
  l = acc ++ map (record_of day_date)
                 (filter (fun e => available_regular e = true) entries)
  /\ (forall x, head entries = Some x -> is_dict x = true).
Proof.
  induction entries as [|e entries IH]; intros acc l H; cbn [parse_day_slots] in H.
  - injection H as <-. split; [now rewrite app_nil_r|discriminate].
  - apply bind_ok in H as (sel & Hs & H).
    apply slot_selected_returns in Hs as [Hd ->].
    split; [|now intros x [= <-]].
    rewrite filter_cons. destruct (available_regular e) eqn:Ea.
    + apply bind_ok in H as (item & Hi & H).
      apply make_slot_returns in Hi as ->.
      apply IH in H as [-> _]. rewrite decide_True by done.
      now rewrite <- app_assoc.
    + apply IH in H as [-> _]. now rewrite decide_False by done.
Qed.

(** A loop over [v] whose first item must be a dict runs over the items
    of a list: a non-empty dict or text would yield a text first. *)
Lemma py_iter_returns v xs :
  py_iter v = Ok xs ->
  (forall x, head xs = Some x -> is_dict x = true) ->
  xs = items v.
Proof.
  destruct v as [ |b|z|s|l|d]; try discriminate; cbn; intros [= <-] H.
  - destruct s as [|c s]; [reflexivity|]. now specialize (H _ eq_refl).
  - reflexivity.
  - destruct d as [|[k x] d]; [reflexivity|]. now specialize (H _ eq_refl).
Qed.

Lemma parse_days_returns days : forall acc l,
  parse_days days acc = Ok l ->
  l = acc ++ flat_map day_records days
  /\ (forall x, head days = Some x -> is_dict x = true).
Proof.
  induction days as [|day days IH]; intros acc l H; cbn [parse_days] in H.
  - injection H as <-. split; [now rewrite app_nil_r|discriminate].
  - apply bind_ok in H as (day_date & Hd & H).
    apply dict_get_ok in Hd as [Hday ->].
    apply bind_ok in H as (slots & Hs & H).
    apply dict_get_ok in Hs as [_ ->].
    apply bind_ok in H as (entries & He & H).
    apply bind_ok in H as (acc' & Hp & H).
    apply parse_day_slots_returns in Hp as [-> Hhead].
    apply py_iter_returns in He; [|exact Hhead]. subst entries.
    apply IH in H as [-> _].
    split; [|now intros x [= <-]].
    cbn [flat_map]. unfold day_records at 2, day_entries.
    now rewrite <- app_assoc.
Qed.

(** X9: whenever the parser returns, it returns the records of the
    available regular entries of the response, in order; any other
    response makes it raise. *)
Theorem parse_slots_returns (data : json) (l : list slot) :
  parse_slots data = Ok l -> l = snapshot_of data.
Proof.
  intros H. unfold parse_slots in H.
  apply bind_ok in H as (v & Hv & H). apply dict_get_ok in Hv as [Hd ->].
  apply bind_ok in H as (slots_list & Hs & H).
  assert (Es : slots_list = slot_list data).
  { unfold slot_list. destruct (truthy (get_or data k_slots (JList []))); cbn in Hs.
    - now injection Hs as <-.
    - now apply dict_get_ok in Hs as [_ ->]. }
  subst slots_list.
  apply bind_ok in H as (days & Hi & H).
  apply parse_days_returns in H as [-> Hhead].
  apply py_iter_returns in Hi; [|exact Hhead]. now subst days.
Qed.


(** ** The fetcher: which request decides the result *)

Section Search.
Variable http_get : endpoint -> result response.

Lemma try_except_again {A} (body : result A) (dflt : A) handler :
  try_except (try_except body (fun _ => Ok dflt)) handler
  = try_except body (fun _ => Ok dflt).
Proof.
  destruct body as [a|e]; [reflexivity|]. cbn.
  destruct (is_Exception e) eqn:Ee; [reflexivity|]. cbn. now rewrite Ee.
Qed.

Lemma get_store_slots_passes store_id handler :
  try_except (slots ← get_store_slots isprintable http_get store_id; Ok slots)
             handler
  = get_store_slots isprintable http_get store_id.
Proof.
  unfold get_store_slots.
  destruct (resp ← http_get (StoreSlots (py_str isprintable store_id));
            if (status resp =? 200)%Z
            then (slots_data ← body resp; l ← parse_slots slots_data; Ok (Some l))
            else Ok None) as [a|e]; [reflexivity|].
  cbn. destruct (is_Exception e) eqn:Ee; [reflexivity|]. cbn. now rewrite Ee.
Qed.

Lemma search_stores_skip pre rest :
  forallb (other_store str_lower) pre = true ->
  search_stores isprintable str_lower http_get (pre ++ rest)
  = search_stores isprintable str_lower http_get rest.
Proof.
  induction pre as [|store pre IH]; intros H; [reflexivity|].
  cbn [forallb] in H. apply andb_true_iff in H as [Hs H].
  unfold other_store, plain_store in Hs.
  apply andb_true_iff in Hs as [Hp Hm].
  apply andb_true_iff in Hp as [Hp Hn].
  apply andb_true_iff in Hp as [Hp Hf].
  apply andb_true_iff in Hp as [Hd Ha].
  cbn [app search_stores].
  rewrite (dict_get_get_or store k_address) by exact Hd. cbn [mbind result_bind].
  rewrite (dict_get_get_or _ k_full) by exact Ha. cbn [mbind result_bind].
  rewrite (dict_get_get_or store k_name) by exact Hd.
  unfold store_matches, store_address in *.
  destruct (get_or (get_or store k_address (JDict [])) k_full (JStr []))
    as [ | | |a| | ]; try discriminate Hf.
  destruct (get_or store k_name (JStr [])) as [ | | |n| | ]; try discriminate Hn.
  cbn [py_lower mbind result_bind].
  apply negb_true_iff in Hm. rewrite Hm. now apply IH.
Qed.

Lemma search_stores_hit store rest :
  plain_store store = true -> store_matches str_lower store = true ->
  search_stores isprintable str_lower http_get (store :: rest)
  = store_id ← dict_item store k_id;
    shown ← dict_item store k_name;
    slots ← get_store_slots isprintable http_get store_id;
    Ok (Some slots).
Proof.
  intros Hp Hm. unfold plain_store in Hp.
  apply andb_true_iff in Hp as [Hp Hn].
  apply andb_true_iff in Hp as [Hp Hf].
  apply andb_true_iff in Hp as [Hd Ha].
  cbn [search_stores].
  rewrite (dict_get_get_or store k_address) by exact Hd. cbn [mbind result_bind].
  rewrite (dict_get_get_or _ k_full) by exact Ha. cbn [mbind result_bind].
  rewrite (dict_get_get_or store k_name) by exact Hd.
  unfold store_matches, store_address in *.
  destruct (get_or (get_or store k_address (JDict [])) k_full (JStr []))
    as [ | | |a| | ]; try discriminate Hf.
  destruct (get_or store k_name (JStr [])) as [ | | |n| | ]; try discriminate Hn.
  cbn [py_lower mbind result_bind]. now rewrite Hm.
Qed.

(** The body of [check_slots] once the search has answered with the
    stores [stores]. *)
Lemma check_slots_body_stores data stores :
  search_reply http_get data -> stores_of data = Some stores ->
  check_slots_body isprintable str_lower http_get
  = found ← search_stores isprintable str_lower http_get stores;
    match found with
    | Some slots => Ok slots
    | None => direct_slots_check http_get
    end.
Proof.
  intros (resp & Hr & Hs & Hb) Hst. unfold check_slots_body.
  rewrite Hr. cbn [mbind result_bind]. rewrite Hs, Hb. cbn [Z.eqb Pos.eqb].
  cbn [mbind result_bind]. unfold stores_of in Hst.
  destruct (is_dict data && is_dict (get_or data k_found (JDict []))) eqn:Ed;
    [|discriminate].
  apply andb_true_iff in Ed as [Hd Hf].
  rewrite !(dict_get_get_or data) by exact Hd. cbn [mbind result_bind].
  rewrite (dict_get_get_or (get_or data k_found (JDict []))) by exact Hf.
  cbn [mbind result_bind].
  assert (E : (if negb (truthy (get_or (get_or data k_found (JDict [])) k_stores (JList [])))
               then Ok (get_or data k_stores (JList []))
               else Ok (get_or (get_or data k_found (JDict [])) k_stores (JList [])))
              = Ok (store_list data)).
  { unfold store_list. now destruct (truthy _). }
  rewrite E. cbn [mbind result_bind].
  destruct (store_list data); try discriminate Hst. injection Hst as ->.
  reflexivity.
Qed.

(** X10: the direct check is the fallback of a search that answers
    without a usable store only: when the search request or the reading
    of its body raises, the result is [None] and the direct check is not
    tried; when the search answers with another status than 200, the
    result is that of the direct check. *)
Theorem check_slots_search_failed :
  (forall e, http_get SearchStores = Raise e -> is_Exception e = true ->
             check_slots isprintable str_lower http_get = Ok None)
  /\ (forall resp e, http_get SearchStores = Ok resp -> status resp = 200%Z ->
                     body resp = Raise e -> is_Exception e = true ->
                     check_slots isprintable str_lower http_get = Ok None)
  /\ (forall resp, http_get SearchStores = Ok resp -> status resp <> 200%Z ->
                   check_slots isprintable str_lower http_get
                   = direct_slots_check http_get).
Proof.
  unfold check_slots, check_slots_body. repeat split.
  - intros e -> He. cbn. now rewrite He.
  - intros resp e Hr Hs Hb He. rewrite Hr. cbn [mbind result_bind].
    rewrite Hs, Hb. cbn. now rewrite He.
  - intros resp Hr Hs. rewrite Hr. cbn [mbind result_bind].
    apply Z.eqb_neq in Hs. rewrite Hs. cbn [mbind result_bind].
    unfold direct_slots_check. apply try_except_again.
Qed.

(** X11: the first store whose address matches decides: the stores
    before it being passed over, the result is that of the request for
    its slots, whatever it is, and neither a later store nor the direct
    check is tried. *)
Theorem check_slots_first_match data pre store rest store_id shown :
  search_reply http_get data ->
  stores_of data = Some (pre ++ store :: rest) ->
  forallb (other_store str_lower) pre = true ->
  plain_store store = true -> store_matches str_lower store = true ->
  dict_item store k_id = Ok store_id -> dict_item store k_name = Ok shown ->
  check_slots isprintable str_lower http_get
  = get_store_slots isprintable http_get store_id.
Proof.
  intros Hr Hst Hpre Hp Hm Hid Hn. unfold check_slots.
  rewrite (check_slots_body_stores data _ Hr Hst).
  rewrite search_stores_skip by exact Hpre.
  rewrite search_stores_hit by assumption.
  rewrite Hid, Hn. cbn [mbind result_bind].
  rewrite <- (get_store_slots_passes store_id (fun _ => Ok None)) at 2.
  now destruct (get_store_slots isprintable http_get store_id).
Qed.

(** X12: a matching store without the key ['id'] or without the key
    ['name'] (read for the log line) ends the check with [None]: its
    slots are not requested and the direct check is not tried. *)
Theorem check_slots_store_without_key data pre store rest :
  search_reply http_get data ->
  stores_of data = Some (pre ++ store :: rest) ->
  forallb (other_store str_lower) pre = true ->
  plain_store store = true -> store_matches str_lower store = true ->
  dict_item store k_id = Raise KeyError \/ dict_item store k_name = Raise KeyError ->
  check_slots isprintable str_lower http_get = Ok None.
Proof.
  intros Hr Hst Hpre Hp Hm Hk. unfold check_slots.
  rewrite (check_slots_body_stores data _ Hr Hst).
  rewrite search_stores_skip by exact Hpre.
  rewrite search_stores_hit by assumption.
  destruct Hk as [Hk|Hk]; rewrite Hk.
  - reflexivity.
  - destruct (dict_item store k_id) as [x|e] eqn:E; [reflexivity|].
    cbn. now rewrite (only_dict_item _ _ _ E).
Qed.

(** X13: when no store matches, the result is that of the direct check. *)
Theorem check_slots_no_match data stores :
  search_reply http_get data ->
  stores_of data = Some stores ->
  forallb (other_store str_lower) stores = true ->
  check_slots isprintable str_lower http_get = direct_slots_check http_get.
Proof.
  intros Hr Hst Hall. unfold check_slots.
  rewrite (check_slots_body_stores data _ Hr Hst).
  rewrite <- (app_nil_r stores), search_stores_skip by exact Hall.
  cbn [search_stores mbind result_bind].
  unfold direct_slots_check. apply try_except_again.
Qed.

(** X14: one store entry that is no object ends the check with [None],
    whatever the stores after it are. *)
Theorem check_slots_malformed_store data pre store rest :
  search_reply http_get data ->
  stores_of data = Some (pre ++ store :: rest) ->
  forallb (other_store str_lower) pre = true ->
  is_dict store = false ->
  check_slots isprintable str_lower http_get = Ok None.
Proof.
  intros Hr Hst Hpre Hd. unfold check_slots.
  rewrite (check_slots_body_stores data _ Hr Hst).
  rewrite search_stores_skip by exact Hpre.
  cbn [search_stores]. destruct store; try discriminate Hd; reflexivity.
Qed.

Lemma try_except_some {A} (body : result (option A)) (x : A) :
  try_except body (fun _ => Ok None) = Ok (Some x) -> body = Ok (Some x).
Proof.
  destruct body as [a|e]; [done|]. cbn. now destruct (is_Exception e).
Qed.

Lemma fetch_some ep l :
  (resp ← http_get ep;
   if (status resp =? 200)%Z
   then (data ← body resp; l ← parse_slots data; Ok (Some l))
   else Ok None) = Ok (Some l) ->
  exists resp data,
    http_get ep = Ok resp /\ status resp = 200%Z
    /\ body resp = Ok data /\ parse_slots data = Ok l.
Proof.
  intros H. apply bind_ok in H as (resp & Hr & H).
  destruct (status resp =? 200)%Z eqn:Es; [|discriminate H].
  apply Z.eqb_eq in Es.
  apply bind_ok in H as (data & Hb & H).
  apply bind_ok in H as (l' & Hp & H). injection H as ->.
  now exists resp, data.
Qed.

Lemma search_stores_some stores l :
  search_stores isprintable str_lower http_get stores = Ok (Some (Some l)) ->
  exists store_id,
    get_store_slots isprintable http_get store_id = Ok (Some l).
Proof.
  induction stores as [|store stores IH]; cbn [search_stores]; [discriminate|].
  intros H.
  apply bind_ok in H as (a & _ & H). apply bind_ok in H as (full & _ & H).
  apply bind_ok in H as (address & _ & H). apply bind_ok in H as (n & _ & H).
  apply bind_ok in H as (name & _ & H).
  destruct (contains lit_street address && contains lit_20 address);
    [|now apply IH].
  apply bind_ok in H as (store_id & _ & H).
  apply bind_ok in H as (shown & _ & H).
  apply bind_ok in H as (slots & Hg & H). injection H as ->.
  now exists store_id.
Qed.

(** X15: a snapshot the fetcher returns is always the parse of the body
    of a reply with status 200 to a slots request, for a store or the
    direct one; the search reply itself contributes no slot. *)
Theorem check_slots_provenance (l : list slot) :
  check_slots isprintable str_lower http_get = Ok (Some l) ->
  exists ep resp data,
    (ep = DirectSlots \/ exists store_id, ep = StoreSlots store_id)
    /\ http_get ep = Ok resp /\ status resp = 200%Z
    /\ body resp = Ok data /\ parse_slots data = Ok l.
Proof.
  intros H. unfold check_slots in H. apply try_except_some in H.
  unfold check_slots_body in H.
  apply bind_ok in H as (resp0 & _ & H).
  apply bind_ok in H as (found & Hf & H).
  destruct found as [slots|].
  - injection H as ->.
    destruct (status resp0 =? 200)%Z; [|discriminate Hf].
    apply bind_ok in Hf as (data & _ & Hf).
    apply bind_ok in Hf as (f & _ & Hf).
    apply bind_ok in Hf as (stores & _ & Hf).
    apply bind_ok in Hf as (stores' & _ & Hf).
    apply bind_ok in Hf as (its & _ & Hf).
    apply search_stores_some in Hf as (store_id & Hg).
    unfold get_store_slots in Hg. apply try_except_some in Hg.
    apply fetch_some in Hg as (resp & data' & ? & ? & ? & ?).
    exists (StoreSlots (py_str isprintable store_id)), resp, data'. eauto 10.
  - unfold direct_slots_check in H. apply try_except_some in H.
    apply fetch_some in H as (resp & data' & ? & ? & ? & ?).
    exists DirectSlots, resp, data'. eauto 10.
Qed.

End Search.

(** ** The handler [status] *)

Section StatusFacts.
Variable exn_str : exn -> pystr.
Variable reply_text : pystr -> result unit.
Variable http_get : endpoint -> result response.
Hypothesis network : network_errors_only http_get.

Lemma check_slots_returns :
  exists r, check_slots isprintable str_lower http_get = Ok r.
Proof.
  destruct (try_except_returns (check_slots_body isprintable str_lower http_get) None)
    as (r & E & _); [now apply only_check_slots_body|].
  now exists r.
Qed.

(** X16: when the replies go through, [status] sends two texts and
    raises nothing: the notice that it is checking, then the formatted
    snapshot when the check gives a non-empty one, and the same "no
    slots" text for an empty snapshot and for a failed check. *)
Theorem status_answers (clock : pystr) :
  (forall text, reply_text text = Ok tt) ->
  exists message,
    status_handler isprintable str_lower exn_str reply_text http_get clock
    = {| replies := [msg_checking; message]; escaped := None |}
    /\ (forall l, check_slots isprintable str_lower http_get = Ok (Some l) ->
                  l <> [] -> message = format_slots_message isprintable clock l)
    /\ (check_slots isprintable str_lower http_get = Ok None
        \/ check_slots isprintable str_lower http_get = Ok (Some []) ->
        message = msg_none_now).
Proof.
  intros Hr. destruct check_slots_returns as (r & E).
  unfold status_handler. rewrite Hr, E.
  destruct r as [[|s rest]|].
  - rewrite Hr. eexists. split; [reflexivity|]. split.
    + intros l [= <-] Hl. now destruct Hl.
    + reflexivity.
  - rewrite Hr. eexists. split; [reflexivity|]. split.
    + now intros l [= <-] _.
    + intros [H|H]; discriminate H.
  - rewrite Hr. eexists. split; [reflexivity|]. split.
    + intros l H. discriminate H.
    + reflexivity.
Qed.

(** X17: an exception leaves [status] only if a reply raised it: a
    failure of the check itself is never passed on to the caller. *)
Theorem status_escape (clock : pystr) (e : exn) :
  escaped (status_handler isprintable str_lower exn_str reply_text http_get clock)
  = Some e ->
  exists text, reply_text text = Raise e.
Proof.
  assert (Hf : forall sent e0, (exists text, reply_text text = Raise e0) ->
            escaped (status_failed exn_str reply_text sent e0) = Some e ->
            exists text, reply_text text = Raise e).
  { intros sent e0 He0. unfold status_failed.
    destruct (is_Exception e0); cbn [escaped].
    - destruct (reply_text (msg_check_error ++ exn_str e0)) eqn:Er; [discriminate|].
      intros [= <-]. eauto.
    - now intros [= <-]. }
  destruct check_slots_returns as (r & E).
  unfold status_handler. rewrite E.
  destruct (reply_text msg_checking) eqn:E1; [|apply Hf; eauto].
  match goal with
  | |- context [reply_text ?m] => destruct (reply_text m) eqn:E2
  end; [discriminate|apply Hf; eauto].
Qed.

End StatusFacts.

(** ** The monitoring loop *)

Lemma has_new_slots_settled (self : monitor) (slots : list slot) :
  str_pairs isprintable (slot_keys slots)
  = str_pairs isprintable (slot_keys (last_slots self)) ->
  has_new_slots isprintable self slots = (false, self).
Proof.
  intros E. unfold has_new_slots.
  destruct (bool_decide (slots = [])); [reflexivity|].
  unfold pystr_eqb. now rewrite bool_decide_eq_true_2.
Qed.

Lemma cycle_of_body w self out :
  cycle_body isprintable str_lower w self = Ok out ->
  cycle isprintable str_lower w self = Ok out.
Proof. unfold cycle. now intros ->. Qed.


Lemma cycle_same_keys (w : env) (self : monitor) (l : list slot) :
  check_slots isprintable str_lower (env_http w) = Ok (Some l) ->
  map slot_key l = map slot_key (last_slots self) ->
  cycle isprintable str_lower w self = Ok (self, []).
Proof.
  intros E Hk. apply cycle_of_body. unfold cycle_body. rewrite E.
  cbn [mbind result_bind]. destruct l as [|s rest]; [reflexivity|].
  rewrite has_new_slots_settled; [reflexivity|].
  now rewrite !slot_keys_fields, Hk.
Qed.

(** X18: a pass whose check fails, gives an empty snapshot, or gives a
    snapshot with the stored sequence of (date, start_time) pairs sends
    nothing and leaves the monitor as it is. *)
Theorem cycle_quiet (w : env) (self : monitor) (r : option (list slot)) :
  check_slots isprintable str_lower (env_http w) = Ok r ->
  (r = None \/ r = Some []
   \/ exists l, r = Some l /\ map slot_key l = map slot_key (last_slots self)) ->
  cycle isprintable str_lower w self = Ok (self, []).
Proof.
  intros E Hq. destruct Hq as [-> | [-> | (l & -> & Hk)]].
  - apply cycle_of_body. unfold cycle_body. now rewrite E.
  - apply cycle_of_body. unfold cycle_body. now rewrite E.
  - now apply (cycle_same_keys w self l).
Qed.

(** X19: a pass whose check gives a non-empty snapshot with another
    sequence of (date, start_time) pairs than the stored one stores it
    and tries every subscriber once; no subscriber is added. *)
Theorem cycle_notifies (w : env) (self : monitor) (l : list slot) :
  check_slots isprintable str_lower (env_http w) = Ok (Some l) ->
  l <> [] ->
  Forall (fun s => wf_slot s = true) l ->
  Forall (fun s => wf_slot s = true) (last_slots self) ->
  map slot_key l <> map slot_key (last_slots self) ->
  exists after,
    cycle isprintable str_lower w self = Ok (after, elements (subscribers self))
    /\ last_slots after = l
    /\ subscribers after ⊆ subscribers self.
Proof.
  intros E Hne Hl Hs Hk.
  assert (Ec : has_new_slots isprintable self l
               = (true, {| subscribers := subscribers self; last_slots := l |})).
  { unfold has_new_slots. rewrite bool_decide_eq_false_2 by exact Hne.
    unfold pystr_eqb. rewrite bool_decide_eq_false_2; [reflexivity|].
    intros Es. apply Hk. rewrite !slot_keys_fields in Es.
    apply (str_pairs_inj isprintable) in Es; auto using wf_slots_pairs. }
  destruct (send_notifications_runs isprintable str_lower (env_send w)
              (env_clock w) {| subscribers := subscribers self; last_slots := l |} l)
    as (out & Eo & _ & Ht & Hm & Hls & _).
  exists (monitor_after out). split.
  - apply cycle_of_body. unfold cycle_body. rewrite E. cbn [mbind result_bind].
    destruct l as [|s rest]; [done|]. rewrite Ec. cbn [fst snd].
    rewrite Eo. cbn [mbind result_bind]. now rewrite Ht.
  - split; [exact Hls|]. rewrite Hm. cbn. set_solver.
Qed.

(** X20: a snapshot is announced at most once: after a pass that
    fetched it, a pass that fetches it again sends nothing and changes
    nothing, whatever became of the deliveries of the first pass. *)
Theorem cycle_no_retry (w1 w2 : env) (self after : monitor)
        (batch : list Z) (l : list slot) :
  check_slots isprintable str_lower (env_http w1) = Ok (Some l) ->
  cycle isprintable str_lower w1 self = Ok (after, batch) ->
  check_slots isprintable str_lower (env_http w2) = Ok (Some l) ->
  cycle isprintable str_lower w2 after = Ok (after, []).
Proof.
  intros E1 Hc E2.
  assert (Hs : l <> [] ->
               str_pairs isprintable (slot_keys l)
               = str_pairs isprintable (slot_keys (last_slots after))).
  { intros Hne. unfold cycle, cycle_body in Hc. rewrite E1 in Hc.
    cbn [mbind result_bind] in Hc. destruct l as [|s rest]; [done|].
    unfold has_new_slots in Hc. cbn [bool_decide decide_rel] in Hc.
    rewrite bool_decide_eq_false_2 in Hc by discriminate. cbn zeta in Hc.
    destruct (pystr_eqb (str_pairs isprintable (slot_keys (s :: rest)))
                        (str_pairs isprintable (slot_keys (last_slots self))))
      eqn:Es; cbn [negb fst snd] in Hc.
    - cbn in Hc. injection Hc as <- _.
      now apply bool_decide_eq_true in Es.
    - destruct (send_notifications_runs isprintable str_lower (env_send w1)
                  (env_clock w1)
                  {| subscribers := subscribers self; last_slots := s :: rest |}
                  (s :: rest)) as (out & Eo & _ & _ & _ & Hls & _).
      rewrite Eo in Hc. cbn in Hc. injection Hc as <- _.
      now rewrite Hls. }
  apply cycle_of_body. unfold cycle_body. rewrite E2. cbn [mbind result_bind].
  destruct l as [|s rest]; [reflexivity|].
  rewrite has_new_slots_settled by (apply Hs; discriminate). reflexivity.
Qed.



(** X22: the first check only stores its snapshot: when the first pass
    then fetches a snapshot with the same sequence of (date, start_time)
    pairs, nothing has been sent and the seeded snapshot is the stored
    one. *)
Theorem monitoring_loop_seeded (first : endpoint -> result response) (w : env)
        (self : monitor) (l l' : list slot) :
  check_slots isprintable str_lower first = Ok (Some l) ->
  l <> [] ->
  check_slots isprintable str_lower (env_http w) = Ok (Some l') ->
  map slot_key l' = map slot_key l ->
  monitoring_loop isprintable str_lower first [w] self
  = Ok ({| subscribers := subscribers self; last_slots := l |}, [[]]).
Proof.
  intros E Hne Ew Hk. unfold monitoring_loop, seed. rewrite E.
  cbn [mbind result_bind]. destruct l as [|s rest]; [done|].
  cbn [run_cycles].
  now rewrite (cycle_same_keys w _ l' Ew).
Qed.

(** ** The two slots requests *)

Lemma fetch_outcome (http_get : endpoint -> result response) ep :
  network_errors_only http_get ->
  exists r,
    try_except
      (resp ← http_get ep;
       if (status resp =? 200)%Z
       then (data ← body resp; l ← parse_slots data; Ok (Some l))
       else Ok None)
      (fun _ => Ok None) = Ok r
    /\ forall l, r = Some l
                 <-> exists resp data,
                       http_get ep = Ok resp /\ status resp = 200%Z
                       /\ body resp = Ok data /\ parse_slots data = Ok l.
Proof.
  intros Hn.
  destruct (try_except_returns
              (resp ← http_get ep;
               if (status resp =? 200)%Z
               then (data ← body resp; l ← parse_slots data; Ok (Some l))
               else Ok None) None) as (r & E & Hnone);
    [now apply only_fetch|].
  exists r. split; [exact E|]. intros l. split.
  - intros ->. apply try_except_some in E. now apply fetch_some in E.
  - intros (resp & data & Hr & Hs & Hb & Hp).
    rewrite Hr in E. cbn [mbind result_bind] in E.
    rewrite Hs, Hb in E. cbn [Z.eqb Pos.eqb mbind result_bind] in E.
    rewrite Hp in E. cbn in E. now injection E as <-.
Qed.

(** X23: with network errors derived from [Exception], each of the two
    slots requests returns a snapshot exactly when its endpoint answers
    with status 200 and a body the parser accepts, the snapshot being
    the parse; in every other case it returns [None]. *)
Theorem slots_requests_outcome (http_get : endpoint -> result response)
        (store_id : json) :
  network_errors_only http_get ->
  (exists r,
     get_store_slots isprintable http_get store_id = Ok r
     /\ forall l, r = Some l
                  <-> exists resp data,
                        http_get (StoreSlots (py_str isprintable store_id)) = Ok resp
                        /\ status resp = 200%Z
                        /\ body resp = Ok data /\ parse_slots data = Ok l)
  /\ (exists r,
        direct_slots_check http_get = Ok r
        /\ forall l, r = Some l
                     <-> exists resp data,
                           http_get DirectSlots = Ok resp /\ status resp = 200%Z
                           /\ body resp = Ok data /\ parse_slots data = Ok l).
Proof.
  intros Hn. split.
  - exact (fetch_outcome http_get (StoreSlots (py_str isprintable store_id)) Hn).
  - exact (fetch_outcome http_get DirectSlots Hn).
Qed.

(** ** What the notifier logs *)

(** X24: the two numbers of the final log line of a batch: the first
    counts the deliveries that succeeded, the second the subscribers
    left after the removals, not those tried; the first never exceeds
    the second, and the second never exceeds the number of subscribers
    at the start. *)
Theorem batch_log_counts send_message clock self slots out (a b : nat) :
  send_notifications isprintable str_lower send_message clock self slots = Ok out ->
  logged_counts out = Some (a, b) ->
  (a <= b <= size (subscribers self))%nat
  /\ b = size (subscribers (monitor_after out))
  /\ a = length (filter
                  (fun u => delivered send_message
                              (format_slots_message isprintable clock slots) u = true)
                  (elements (subscribers self))).
Proof.
  intros E Hl.
  destruct (send_notifications_runs isprintable str_lower send_message clock
              self slots) as (out' & E' & _ & _ & Hm & _ & Hlog).
  rewrite E in E'. injection E' as <-.
  destruct (decide (subscribers self = ∅)) as [He|He].
  { unfold send_notifications in E. rewrite bool_decide_eq_true_2 in E by exact He.
    injection E as <-. discriminate Hl. }
  rewrite (Hlog He) in Hl. injection Hl as <- <-.
  set (message := format_slots_message isprintable clock slots) in *.
  set (els := elements (subscribers self)) in *.
  assert (Hsub : subscribers (monitor_after out) ⊆ subscribers self)
    by (rewrite Hm; set_solver).
  split; [split|split; [reflexivity|]].
  - unfold size, set_size. cbn.
    apply submseteq_length, NoDup_submseteq.
    + apply NoDup_filter, NoDup_elements.
    + intros u Hu. apply list_elem_of_filter in Hu as [Hd Hu].
      apply elem_of_elements. rewrite Hm.
      apply elem_of_difference. split; [now apply elem_of_elements|].
      rewrite elem_of_list_to_set, list_elem_of_filter.
      intros [Hdr _]. unfold delivered in Hd. unfold dropped in Hdr.
      fold message in Hdr. now destruct (send_message u message).
  - now apply subseteq_size.
  - reflexivity.
Qed.

(** ** A day without a date *)

(** X25: the records of a day that carries no date take [''] as their
    date, and the formatter renders none of them, at any position. *)
Theorem undated_day_not_rendered (day : json) (r : slot) (i : nat) :
  get_or day k_date (JStr []) = JStr [] ->
  r ∈ day_records day ->
  date r = JStr [] /\ render_slot isprintable i r = None.
Proof.
  intros Hd Hr. unfold day_records in Hr.
  apply list_elem_of_fmap in Hr as (e & -> & _). rewrite Hd.
  split; [reflexivity|]. now apply render_slot_unparsed.
Qed.

End More.

(** ** Examples of the further properties *)

Lemma offline_network : network_errors_only offline.
Proof.
  intros ep. split.
  - now intros e [= <-].
  - intros resp H. discriminate H.
Qed.


Lemma lavka_network : network_errors_only lavka.
Proof.
  intros ep. split.
  - intros e H. destruct ep as [ |store_id| ]; unfold lavka in H;
      try discriminate H.
    destruct (pystr_eqb store_id (txt "7")); discriminate H.
  - intros resp H e Hb.
    destruct ep as [ |store_id| ]; unfold lavka in H.
    + injection H as <-. discriminate Hb.
    + destruct (pystr_eqb store_id (txt "7")); injection H as <-;
        [discriminate Hb|]. now injection Hb as <-.
    + injection H as <-. now injection Hb as <-.
Qed.

Lemma search_reply_world stores : search_reply (world_with stores) (search_body stores).
Proof. eexists. split; [reflexivity|]. split; reflexivity. Qed.

Lemma format_ignores_tail_witness :
  format_slots_message all_printable clock_noon (replicate 16 slot_a ++ [slot_b])
  = format_slots_message all_printable clock_noon
      (replicate 16 slot_a ++ [slot_undated]).
Proof.
  apply (format_ignores_tail all_printable clock_noon
           (replicate 16 slot_a ++ [slot_b])
           (replicate 16 slot_a ++ [slot_undated])); reflexivity.
Defined.

Lemma parse_slots_returns_witness :
  [slot_morning; slot_noon] = snapshot_of slots_response.
Proof.
  apply (parse_slots_returns slots_response [slot_morning; slot_noon]).
  reflexivity.
Defined.

Lemma check_slots_first_match_witness :
  check_slots all_printable ascii_lower (world_with [far_store; lavka_store])
  = get_store_slots all_printable (world_with [far_store; lavka_store]) (JInt 7).
Proof.
  apply (check_slots_first_match all_printable ascii_lower
           (world_with [far_store; lavka_store])
           (search_body [far_store; lavka_store])
           [far_store] lavka_store [] (JInt 7) (JStr (txt "Lavka"))).
  - apply search_reply_world.
  - reflexivity.
  - vm_compute. reflexivity.
  - vm_compute. reflexivity.
  - vm_compute. reflexivity.
  - reflexivity.
  - reflexivity.
Defined.

Lemma check_slots_store_without_key_witness :
  check_slots all_printable ascii_lower (world_with [unnamed_store]) = Ok None.
Proof.
  apply (check_slots_store_without_key all_printable ascii_lower
           (world_with [unnamed_store]) (search_body [unnamed_store])
           [] unnamed_store []).
  - apply search_reply_world.
  - reflexivity.
  - reflexivity.
  - vm_compute. reflexivity.
  - vm_compute. reflexivity.
  - right. reflexivity.
Defined.

Lemma check_slots_no_match_witness :
  check_slots all_printable ascii_lower (world_with [far_store])
  = direct_slots_check (world_with [far_store]).
Proof.
  apply (check_slots_no_match all_printable ascii_lower (world_with [far_store])
           (search_body [far_store]) [far_store]).
  - apply search_reply_world.
  - reflexivity.
  - vm_compute. reflexivity.
Defined.

Lemma check_slots_malformed_store_witness :
  check_slots all_printable ascii_lower
    (world_with [JStr (txt "closed"); lavka_store]) = Ok None.
Proof.
  apply (check_slots_malformed_store all_printable ascii_lower
           (world_with [JStr (txt "closed"); lavka_store])
           (search_body [JStr (txt "closed"); lavka_store])
           [] (JStr (txt "closed")) [lavka_store]).
  - apply search_reply_world.
  - reflexivity.
  - reflexivity.
  - reflexivity.
Defined.

Lemma check_slots_provenance_witness :
  exists ep resp data,
    (ep = DirectSlots \/ exists store_id, ep = StoreSlots store_id)
    /\ lavka ep = Ok resp /\ status resp = 200%Z
    /\ body resp = Ok data /\ parse_slots data = Ok [slot_morning; slot_noon].
Proof.
  apply (check_slots_provenance all_printable ascii_lower lavka
           [slot_morning; slot_noon]).
  vm_compute. reflexivity.
Defined.

Lemma status_answers_witness :
  exists message,
    status_handler all_printable ascii_lower exn_text reply_ok offline clock_noon
    = {| replies := [msg_checking; message]; escaped := None |}
    /\ (forall l, check_slots all_printable ascii_lower offline = Ok (Some l) ->
                  l <> [] -> message = format_slots_message all_printable clock_noon l)
    /\ (check_slots all_printable ascii_lower offline = Ok None
        \/ check_slots all_printable ascii_lower offline = Ok (Some []) ->
        message = msg_none_now).
Proof.
  apply (status_answers all_printable ascii_lower exn_text reply_ok offline
           offline_network clock_noon).
  reflexivity.
Defined.

Lemma status_escape_witness :
  exists text, reply_down text = Raise (ClientError (txt "Timed out")).
Proof.
  apply (status_escape all_printable ascii_lower exn_text reply_down lavka
           lavka_network clock_noon (ClientError (txt "Timed out"))).
  reflexivity.
Defined.

Lemma cycle_quiet_witness :
  cycle all_printable ascii_lower pass_offline (subscribed {[ 42%Z ]})
  = Ok (subscribed {[ 42%Z ]}, []).
Proof.
  apply (cycle_quiet all_printable ascii_lower pass_offline
           (subscribed {[ 42%Z ]}) None).
  - reflexivity.
  - left. reflexivity.
Defined.

Lemma cycle_notifies_witness :
  exists after,
    cycle all_printable ascii_lower pass_lavka (subscribed {[ 7%Z; 42%Z ]})
    = Ok (after, elements (subscribers (subscribed {[ 7%Z; 42%Z ]})))
    /\ last_slots after = [slot_morning; slot_noon]
    /\ subscribers after ⊆ subscribers (subscribed {[ 7%Z; 42%Z ]}).
Proof.
  apply (cycle_notifies all_printable ascii_lower pass_lavka
           (subscribed {[ 7%Z; 42%Z ]}) [slot_morning; slot_noon]).
  - exact check_slots_lavka.
  - discriminate.
  - repeat constructor.
  - repeat constructor.
  - vm_compute. discriminate.
Defined.

Lemma cycle_no_retry_witness :
  cycle all_printable ascii_lower pass_lavka
    {| subscribers := {[ 42%Z ]}; last_slots := [slot_morning; slot_noon] |}
  = Ok ({| subscribers := {[ 42%Z ]}; last_slots := [slot_morning; slot_noon] |},
        []).
Proof.
  apply (cycle_no_retry all_printable ascii_lower pass_lavka pass_lavka
           (subscribed {[ 42%Z ]})
           {| subscribers := {[ 42%Z ]}; last_slots := [slot_morning; slot_noon] |}
           [42%Z] [slot_morning; slot_noon]).
  - exact check_slots_lavka.
  - vm_compute. reflexivity.
  - exact check_slots_lavka.
Defined.


Lemma monitoring_loop_seeded_witness :
  monitoring_loop all_printable ascii_lower lavka [pass_lavka]
    (subscribed {[ 42%Z ]})
  = Ok ({| subscribers := subscribers (subscribed {[ 42%Z ]});
           last_slots := [slot_morning; slot_noon] |}, [[]]).
Proof.
  apply (monitoring_loop_seeded all_printable ascii_lower lavka pass_lavka
           (subscribed {[ 42%Z ]}) [slot_morning; slot_noon]
           [slot_morning; slot_noon]).
  - exact check_slots_lavka.
  - discriminate.
  - exact check_slots_lavka.
  - reflexivity.
Defined.

(** The passes of the scenario: seeded with one snapshot, the loop keeps
    quiet on the same snapshot and sends one batch on a new one. *)
Example monitoring_loop_scenario :
  monitoring_loop all_printable ascii_lower offline [pass_offline; pass_lavka; pass_lavka]
    {| subscribers := {[ 42%Z ]}; last_slots := [] |}
  = Ok ({| subscribers := {[ 42%Z ]}; last_slots := [slot_morning; slot_noon] |},
        [[]; [42%Z]; []]).
Proof. vm_compute. reflexivity. Qed.

Lemma slots_requests_outcome_witness :
  (exists r,
     get_store_slots all_printable lavka (JInt 7) = Ok r
     /\ forall l, r = Some l
                  <-> exists resp data,
                        lavka (StoreSlots (py_str all_printable (JInt 7))) = Ok resp
                        /\ status resp = 200%Z
                        /\ body resp = Ok data /\ parse_slots data = Ok l)
  /\ (exists r,
        direct_slots_check lavka = Ok r
        /\ forall l, r = Some l
                     <-> exists resp data,
                           lavka DirectSlots = Ok resp /\ status resp = 200%Z
                           /\ body resp = Ok data /\ parse_slots data = Ok l).
Proof.
  apply (slots_requests_outcome all_printable lavka (JInt 7) lavka_network).
Defined.

Lemma batch_log_counts_witness :
  (1 <= 1 <= size (subscribers (subscribed {[ 42%Z; 100%Z ]})))%nat
  /\ 1%nat = size (subscribers (monitor_after batch_out))
  /\ 1%nat
     = length (filter
                 (fun u => delivered telegram
                             (format_slots_message all_printable clock_noon [slot_b]) u
                           = true)
                 (elements (subscribers (subscribed {[ 42%Z; 100%Z ]})))).
Proof.
  apply (batch_log_counts all_printable ascii_lower telegram clock_noon
           (subscribed {[ 42%Z; 100%Z ]}) [slot_b] batch_out 1 1).
  - vm_compute. reflexivity.
  - reflexivity.
Defined.

Lemma undated_day_not_rendered_witness :
  date (record_of (JStr []) (JDict [(txt "available", JBool true);
                                    (txt "type", JStr (txt "regular"));
                                    (txt "from", JStr (txt "10:00"));
                                    (txt "to", JStr (txt "11:00"))])) = JStr []
  /\ render_slot all_printable 1
       (record_of (JStr []) (JDict [(txt "available", JBool true);
                                    (txt "type", JStr (txt "regular"));
                                    (txt "from", JStr (txt "10:00"));
                                    (txt "to", JStr (txt "11:00"))])) = None.
Proof.
  apply (undated_day_not_rendered all_printable undated_day).
  - reflexivity.
  - vm_compute. left.
Defined.
